(** * login-portal: the exam service ([src/services/testService.ts])

    A shallow embedding of the exam-session core of the portal: the entry
    window, the per-participant question shuffle, the session status store
    and the result recorder, followed by the properties of the design
    document that can be stated over it.

    Conventions of the embedding.
    - A JavaScript [number] that may hold a fraction is an IEEE-754 binary64
      value: [spec_float] of the standard library, with precision 53 and
      maximal exponent 1024.  Division and multiplication are the correctly
      rounded [SFdiv] and [SFmul].
    - A JavaScript [number] that only ever holds an integer (character
      codes, the seed and state of the generator, array indices, counters,
      epoch milliseconds) is a [Z].  JavaScript computes these exactly as
      long as they stay below 2^53, which holds for every participant id
      shorter than ten million characters.  The violation count comes
      from the store and has no such bound: its increment is the binary64
      sum, [plusOne].
    - An array is a [list]; a JavaScript array has fewer than 2^32
      elements, and the statements about arrays assume that bound.
    - A [Date] is its epoch time in milliseconds.
    - Strings are [string], over 8-bit characters; [charCodeAt] is the
      code of the character.  The shuffle uses the id only through the sum
      of the codes.
    - An [async] function is a function of the world (the two collections
      of the store, the clock, and the answers the store will give) that
      returns or throws; [await] is sequencing. *)

From Stdlib Require Import ZArith QArith Qpower Qround Lia Lqa SpecFloat Ascii String Sorted.
From stdpp Require Import gmap strings list pretty.

Local Open Scope Z_scope.

(** ** JavaScript numbers *)

Module JsNumber.

Definition number := spec_float.

Definition prec : Z := 53.
Definition emax : Z := 1024.

(** An integer literal or integer-valued variable read as a [number]. *)
Definition of_int (z : Z) : number := binary_normalize prec emax z 0 false.

Definition NaN : number := S754_nan.

(** [x / y], [x * y] and [x + y] *)
Definition div (x y : number) : number := SFdiv prec emax x y.
Definition mul (x y : number) : number := SFmul prec emax x y.
Definition add (x y : number) : number := SFadd prec emax x y.

(** [x >= y]: false as soon as one side is NaN. *)
Definition ge (x y : number) : bool :=
  match SFcompare x y with
  | Some Gt | Some Eq => true
  | _ => false
  end.

(** The integer below a finite value [(-1)^s * m * 2^e]. *)
Definition floor_finite (s : bool) (m : positive) (e : Z) : Z :=
  let v := if s then Z.neg m else Z.pos m in
  if 0 <=? e then v * 2 ^ e else v / 2 ^ (- e).

(** [Math.floor(x)], as the integer it denotes; NaN and the infinities,
    which [Math.floor] returns unchanged, give [None]. *)
Definition Math_floor (x : number) : option Z :=
  match x with
  | S754_zero _ => Some 0
  | S754_finite s m e => Some (floor_finite s m e)
  | S754_infinity _ | S754_nan => None
  end.

(** [Math.round(x)]: the integer nearest to [x], a tie going up; NaN, the
    infinities and the zeros are returned unchanged and a negative value
    that rounds to zero gives [-0]. *)
Definition Math_round (x : number) : number :=
  match x with
  | S754_finite s m e =>
      let v := if s then Z.neg m else Z.pos m in
      let r := if 0 <=? e then v * 2 ^ e
               else (2 * v + 2 ^ (- e)) / 2 ^ (- e + 1) in
      binary_normalize prec emax r 0 s
  | _ => x
  end.

(** The integer a [number] holds, when it is finite and integral. *)
Definition to_int (x : number) : option Z :=
  match x with
  | S754_zero _ => Some 0
  | S754_finite s m e =>
      let v := if s then Z.neg m else Z.pos m in
      if 0 <=? e then Some (v * 2 ^ e)
      else if v mod 2 ^ (- e) =? 0 then Some (v / 2 ^ (- e)) else None
  | S754_infinity _ | S754_nan => None
  end.

(** A zero or a finite value: neither NaN nor an infinity. *)
Definition is_finite (x : number) : bool :=
  match x with
  | S754_zero _ | S754_finite _ _ _ => true
  | S754_infinity _ | S754_nan => false
  end.

(** The rational a finite [number] denotes (0 for the others). *)
Definition to_Q (x : number) : Q :=
  match x with
  | S754_finite s m e =>
      let v := if s then Z.neg m else Z.pos m in
      (inject_Z v * Qpower 2 e)%Q
  | _ => 0%Q
  end.

End JsNumber.

Import JsNumber.

(** ** Data model *)

Record TestSettings := {
  testStartTime : Z;   (* Date *)
  testDuration : Z;    (* in minutes *)
  maxTabSwitches : Z;
  isTestActive : bool
}.

Record TestQuestion := {
  q_id : string;
  q_question : string;
  q_options : list string;
  q_correctAnswer : Z;
  q_category : string
}.

Record TestAnswer := {
  questionId : string;
  selectedAnswer : Z;
  isCorrect : bool
}.

(** ** Configuration and the entry window *)

(** [new Date('2025-08-30T11:36:00')] is a local time: its epoch value is
    the UTC reading of that wall clock minus the zone offset of the host. *)
Definition getTestSettings (zoneOffsetMs : Z) : TestSettings :=
  {| testStartTime := 1756553760000 - zoneOffsetMs;
     testDuration := 15;
     maxTabSwitches := 5;
     isTestActive := true |}.

(** [isTestAvailable]: the settings object and the clock reading
    [new Date()] are the two inputs of the source function. *)
Definition isTestAvailable (settings : TestSettings) (now : Z) : bool :=
  let start := testStartTime settings in
  let end_ := start + 30 * 60 * 1000 in
  (start <=? now) && (now <=? end_).

Definition getTestEndTime (settings : TestSettings) : Z :=
  testStartTime settings + 30 * 60 * 1000.

(** ** The question shuffle *)

Definition charCodeAt0 (char : ascii) : Z := Z.of_N (N_of_ascii char).

(** [userId.split('').reduce((acc, char) => acc + char.charCodeAt(0), 0)] *)
Definition seedOf (userId : string) : Z :=
  fold_left (fun acc char => acc + charCodeAt0 char)
            (list_ascii_of_string userId) 0.

(** The closure [seededRandom]: it updates the captured [random] and
    returns the quotient; here the new value of [random] is returned with
    the quotient. *)
Definition seededRandom (random : Z) : Z * number :=
  let random' := Z.rem (random * 9301 + 49297) 233280 in
  (random', div (of_int random') (of_int 233280)).

(** [[a[i], a[j]] = [a[j], a[i]]]: both elements are read, then [a[i]] and
    [a[j]] are written in that order.  An index outside the array would
    read [undefined] and grow the array; that outcome, which leaves the
    type [TestQuestion[]], is [None]. *)
Definition swap {A} (a : list A) (i : nat) (j : Z) : option (list A) :=
  if (0 <=? j) && (j <? Z.of_nat (length a)) then
    match a !! i, a !! Z.to_nat j with
    | Some ai, Some aj => Some (<[Z.to_nat j := ai]> (<[i := aj]> a))
    | _, _ => None
    end
  else None.

(** The body of the [for] loop, run for [i], [i-1], ..., [1]. *)
Fixpoint shuffleLoop {A} (i : nat) (random : Z) (shuffled : list A)
  : option (list A) :=
  match i with
  | O => Some shuffled
  | S i' =>
      let '(random', r) := seededRandom random in
      match Math_floor (mul r (of_int (Z.of_nat i + 1))) with
      | Some j =>
          match swap shuffled i j with
          | Some shuffled' => shuffleLoop i' random' shuffled'
          | None => None
          end
      | None => None
      end
  end.

Definition shuffleQuestions (questions : list TestQuestion) (userId : string)
  : option (list TestQuestion) :=
  let seed := seedOf userId in
  shuffleLoop (length questions - 1) seed questions.

(** ** Scoring *)

Record Score := { score : Z; percentage : number }.

Definition calculateScore (answers : list TestAnswer) : Score :=
  let correctAnswers := Z.of_nat (length (filter (fun answer => isCorrect answer = true) answers)) in
  let totalQuestions := Z.of_nat (length answers) in
  let percentage :=
    Math_round (mul (div (of_int correctAnswers) (of_int totalQuestions)) (of_int 100)) in
  {| score := correctAnswers; percentage := percentage |}.

Record Grade := { grade : string; color : string; message : string }.

Definition getGradeFromPercentage (percentage : number) : Grade :=
  if ge percentage (of_int 90) then
    {| grade := "A+"; color := "text-green-400"; message := "Outstanding Performance!" |}
  else if ge percentage (of_int 80) then
    {| grade := "A"; color := "text-green-400"; message := "Excellent Work!" |}
  else if ge percentage (of_int 70) then
    {| grade := "B+"; color := "text-blue-400"; message := "Good Performance!" |}
  else if ge percentage (of_int 60) then
    {| grade := "B"; color := "text-blue-400"; message := "Satisfactory!" |}
  else if ge percentage (of_int 50) then
    {| grade := "C"; color := "text-yellow-400"; message := "Needs Improvement!" |}
  else
    {| grade := "F"; color := "text-red-400"; message := "Better Luck Next Time!" |}.

(** ** The document store

    The store is an external collaborator.  Every call to it is a round
    trip whose answer the program does not control: how long it took,
    whether it failed and, for [addDoc], the identity it assigned.  The
    world holds the answers the store will give, indexed by the number of
    the call, next to the two collections and the clock. *)

Record JsError := {
  err_code : option string;     (* [error.code]; absent on a plain [Error] *)
  err_message : string
}.

(** [new Error(msg)] *)
Definition Error (msg : string) : JsError :=
  {| err_code := None; err_message := msg |}.

(** [error.message || fallback] *)
Definition messageOr (error : JsError) (fallback : string) : string :=
  if decide (err_message error = EmptyString) then fallback else err_message error.

(** A document of the collection [userTestStatus]; a field may be missing. *)
Record StatusDoc := {
  doc_userId : option string;
  doc_hasSubmitted : option bool;
  doc_submissionDate : option Z;
  doc_tabSwitchCount : option Z;
  doc_isTestCancelled : option bool;
  doc_lastActivity : option Z
}.

Record UserTestStatus := {
  userId : string;
  hasSubmitted : bool;
  submissionDate : option Z;
  tabSwitchCount : Z;
  isTestCancelled : bool;
  lastActivity : Z
}.

Inductive ResultStatus := completed | in_progress | abandoned.

Record TestResult := {
  r_userId : string;
  r_userName : string;
  r_userEmail : string;
  r_admissionNumber : string;
  r_branch : string;
  r_score : Z;
  r_totalQuestions : Z;
  r_percentage : number;
  r_timeSpent : Z;
  r_answers : list TestAnswer;
  r_completedAt : Z;
  r_status : ResultStatus
}.

Record Response := {
  latency : Z;
  failure : option JsError;
  assignedId : string
}.

Record World := {
  statusDocs : gmap string StatusDoc;          (* collection userTestStatus *)
  testResults : list (string * TestResult);    (* collection testResults *)
  clock : Z;
  calls : nat;                                 (* store calls made so far *)
  respond : nat -> Response
}.

Inductive Outcome (A : Type) :=
| Return (a : A)
| Throw (error : JsError).
Arguments Return {A} a.
Arguments Throw {A} error.

(** An [async] function: it runs in a world and returns or throws. *)
Definition Async (A : Type) : Type := World -> Outcome A * World.

#[global] Instance async_ret : MRet Async := fun A a w => (Return a, w).

#[global] Instance async_bind : MBind Async := fun A B f m w =>
  match m w with
  | (Return a, w') => f a w'
  | (Throw error, w') => (Throw error, w')
  end.

Definition throw {A} (error : JsError) : Async A := fun w => (Throw error, w).

(** [try { body } catch (error) { handler }] *)
Definition try_catch {A} (body : Async A) (handler : JsError -> Async A) : Async A :=
  fun w =>
    match body w with
    | (Return a, w') => (Return a, w')
    | (Throw error, w') => handler error w'
    end.

(** [new Date()] *)
Definition newDate : Async Z := fun w => (Return (clock w), w).

(** One round trip: time passes and the store answers. *)
Definition roundTrip : Async Response := fun w =>
  let r := respond w (calls w) in
  let w' := {| statusDocs := statusDocs w; testResults := testResults w;
               clock := clock w + latency r; calls := S (calls w);
               respond := respond w |} in
  match failure r with
  | Some error => (Throw error, w')
  | None => (Return r, w')
  end.

Definition getStatusDocs : Async (gmap string StatusDoc) :=
  fun w => (Return (statusDocs w), w).

Definition appendResult (id : string) (data : TestResult) : Async () :=
  fun w => (Return (),
            {| statusDocs := statusDocs w;
               testResults := testResults w ++ [(id, data)];
               clock := clock w; calls := calls w; respond := respond w |}).

Definition setStatusDocs (f : gmap string StatusDoc -> gmap string StatusDoc) : Async () :=
  fun w => (Return (),
            {| statusDocs := f (statusDocs w); testResults := testResults w;
               clock := clock w; calls := calls w; respond := respond w |}).

(** [getDoc(doc(db, 'userTestStatus', id))]: the snapshot; [exists()] is
    [is_Some] and [data()] the document. *)
Definition getDoc (id : string) : Async (option StatusDoc) :=
  _ ← roundTrip; docs ← getStatusDocs; mret (docs !! id).

(** [setDoc(ref, data)] writes the document, replacing what was there. *)
Definition setDoc (id : string) (data : StatusDoc) : Async () :=
  _ ← roundTrip; setStatusDocs (insert id data).

(** The fields of [patch] that are present replace those of [data]. *)
Definition merge (patch data : StatusDoc) : StatusDoc :=
  {| doc_userId := match doc_userId patch with Some x => Some x | None => doc_userId data end;
     doc_hasSubmitted := match doc_hasSubmitted patch with Some x => Some x | None => doc_hasSubmitted data end;
     doc_submissionDate := match doc_submissionDate patch with Some x => Some x | None => doc_submissionDate data end;
     doc_tabSwitchCount := match doc_tabSwitchCount patch with Some x => Some x | None => doc_tabSwitchCount data end;
     doc_isTestCancelled := match doc_isTestCancelled patch with Some x => Some x | None => doc_isTestCancelled data end;
     doc_lastActivity := match doc_lastActivity patch with Some x => Some x | None => doc_lastActivity data end |}.

Definition notFound : JsError :=
  {| err_code := Some "not-found"; err_message := "No document to update" |}.

(** [updateDoc(ref, patch)] fails with [not-found] on a missing document. *)
Definition updateDoc (id : string) (patch : StatusDoc) : Async () :=
  _ ← roundTrip;
  docs ← getStatusDocs;
  match docs !! id with
  | Some data => setStatusDocs (insert id (merge patch data))
  | None => throw notFound
  end.

(** [addDoc(collection(db, 'testResults'), data)] appends the record under
    the identity the store assigns and returns that identity. *)
Definition addDoc (data : TestResult) : Async string :=
  r ← roundTrip;
  _ ← appendResult (assignedId r) data;
  mret (assignedId r).

(** ** The session status store *)

(** The object literal [{ userId, hasSubmitted: false, tabSwitchCount: 0,
    isTestCancelled: false, lastActivity: new Date() }], as the status
    returned and as the document written. *)
Definition defaultStatus (id : string) (now : Z) : UserTestStatus :=
  {| userId := id; hasSubmitted := false; submissionDate := None;
     tabSwitchCount := 0; isTestCancelled := false; lastActivity := now |}.

Definition docOfStatus (s : UserTestStatus) : StatusDoc :=
  {| doc_userId := Some (userId s);
     doc_hasSubmitted := Some (hasSubmitted s);
     doc_submissionDate := submissionDate s;
     doc_tabSwitchCount := Some (tabSwitchCount s);
     doc_isTestCancelled := Some (isTestCancelled s);
     doc_lastActivity := Some (lastActivity s) |}.

Definition isRecoverable (error : JsError) : bool :=
  bool_decide (err_code error = Some "permission-denied")
  || bool_decide (err_code error = Some "not-found").

Definition getUserTestStatus (id : string) : Async UserTestStatus :=
  try_catch
    (try_catch
       (statusDoc ← getDoc id;
        match statusDoc with
        | Some data =>
            now ← newDate;
            mret {| userId := id;
                    hasSubmitted := default false (doc_hasSubmitted data);
                    submissionDate := doc_submissionDate data;
                    tabSwitchCount := default 0 (doc_tabSwitchCount data);
                    isTestCancelled := default false (doc_isTestCancelled data);
                    lastActivity := default now (doc_lastActivity data) |}
        | None =>
            (* Document doesn't exist, create it with default values *)
            now ← newDate;
            let status := defaultStatus id now in
            _ ← setDoc id (docOfStatus status);
            mret status
        end)
       (fun docError =>
          (* If we can't read the document, try to create it *)
          if isRecoverable docError then
            now ← newDate;
            let status := defaultStatus id now in
            _ ← setDoc id (docOfStatus status);
            mret status
          else throw docError))
    (fun error =>
       throw (Error ("Failed to get user test status: " +:+ err_message error))).

Definition markTestAsSubmitted (id : string) : Async () :=
  try_catch
    (statusDoc ← getDoc id;
     now ← newDate;
     match statusDoc with
     | Some _ =>
         updateDoc id {| doc_userId := None; doc_hasSubmitted := Some true;
                         doc_submissionDate := Some now; doc_tabSwitchCount := None;
                         doc_isTestCancelled := None; doc_lastActivity := Some now |}
     | None =>
         setDoc id {| doc_userId := Some id; doc_hasSubmitted := Some true;
                      doc_submissionDate := Some now; doc_tabSwitchCount := Some 0;
                      doc_isTestCancelled := Some false; doc_lastActivity := Some now |}
     end)
    (fun error => throw (Error (messageOr error "Failed to mark test as submitted"))).

(** [currentCount + 1] is a sum of two JavaScript numbers.  A count is an
    integer-valued number and the documents hold it by its integer value:
    the sum is taken in binary64 and read back as the integer it denotes.
    The sum of two integer-valued numbers is integer-valued unless it is an
    infinity, and [Infinity + 1] is [Infinity]: then the count is left as
    it is. *)
Definition plusOne (currentCount : Z) : Z :=
  default currentCount (to_int (add (of_int currentCount) (of_int 1))).

Arguments plusOne : simpl never.

Definition incrementTabSwitchCount (id : string) : Async Z :=
  try_catch
    (statusDoc ← getDoc id;
     match statusDoc with
     | Some data =>
         let currentCount := default 0 (doc_tabSwitchCount data) in
         let newCount := plusOne currentCount in
         now ← newDate;
         _ ← updateDoc id {| doc_userId := None; doc_hasSubmitted := None;
                             doc_submissionDate := None; doc_tabSwitchCount := Some newCount;
                             doc_isTestCancelled := None; doc_lastActivity := Some now |};
         mret newCount
     | None =>
         let newCount := 1 in
         now ← newDate;
         _ ← setDoc id {| doc_userId := Some id; doc_hasSubmitted := Some false;
                          doc_submissionDate := None; doc_tabSwitchCount := Some newCount;
                          doc_isTestCancelled := Some false; doc_lastActivity := Some now |};
         mret newCount
     end)
    (fun error => throw (Error (messageOr error "Failed to increment tab switch count"))).

(** ** The result recorder *)

(** [{ ...testResult, completedAt: new Date() }] *)
Definition withCompletedAt (testResult : TestResult) (now : Z) : TestResult :=
  {| r_userId := r_userId testResult; r_userName := r_userName testResult;
     r_userEmail := r_userEmail testResult;
     r_admissionNumber := r_admissionNumber testResult;
     r_branch := r_branch testResult; r_score := r_score testResult;
     r_totalQuestions := r_totalQuestions testResult;
     r_percentage := r_percentage testResult;
     r_timeSpent := r_timeSpent testResult; r_answers := r_answers testResult;
     r_completedAt := now; r_status := r_status testResult |}.

Definition submitTestResult (testResult : TestResult) : Async string :=
  try_catch
    ((* Mark test as submitted *)
     _ ← markTestAsSubmitted (r_userId testResult);
     now ← newDate;
     addDoc (withCompletedAt testResult now))
    (fun error => throw (Error (messageOr error "Failed to submit test result"))).

(** ** The shuffle as the design document words it

    A second definition of the shuffle, written from the three steps of
    the design document and not from the source, to compare the source
    with.  The document does not say in which arithmetic the quotient
    [state / 233280] and its product with [i + 1] are taken; both readings
    are given: the rationals, and binary64 as in JavaScript. *)

Module Reference.

(** 1. Seed = sum of the character codes of the participant id string. *)
Definition seed (participantId : string) : Z :=
  foldr Z.add 0 (charCodeAt0 <$> list_ascii_of_string participantId).

(** 2. [state = (state * 9301 + 49297) mod 233280]: the state after [n]
    calls of the generator. *)
Fixpoint state (seed : Z) (n : nat) : Z :=
  match n with
  | O => seed
  | S n' => (state seed n' * 9301 + 49297) mod 233280
  end.

(** The [n]-th call returns [state / 233280]. *)
Definition generator (seed : Z) (n : nat) : Q :=
  (inject_Z (state seed n) / 233280)%Q.

Definition generator64 (seed : Z) (n : nat) : number :=
  div (of_int (state seed n)) (of_int 233280).

(** 3. [j = floor(generator() * (i + 1))] *)
Definition draw (seed : Z) (n i : nat) : nat :=
  Z.to_nat (Qfloor (generator seed n * inject_Z (Z.of_nat i + 1))).

Definition draw64 (seed : Z) (n i : nat) : nat :=
  Z.to_nat (default 0 (Math_floor (mul (generator64 seed n) (of_int (Z.of_nat i + 1))))).

(** Swap elements at [i] and [j]. *)
Definition exchange {A} (l : list A) (i j : nat) : list A :=
  match l !! i, l !! j with
  | Some x, Some y => <[i := y]> (<[j := x]> l)
  | _, _ => l
  end.

(** For index [i] from [length - 1] down to 1: step [k] works at index
    [length - k] with the [k]-th draw. *)
Definition fisherYates {A} (draw : nat -> nat -> nat) (l : list A) : list A :=
  foldl (fun a k => let i := (length l - k)%nat in exchange a i (draw k i))
        l (seq 1 (length l - 1)).

Definition shuffle (questions : list TestQuestion) (participantId : string)
  : list TestQuestion :=
  fisherYates (draw (seed participantId)) questions.

Definition shuffle64 (questions : list TestQuestion) (participantId : string)
  : list TestQuestion :=
  fisherYates (draw64 (seed participantId)) questions.

End Reference.

(** ** Quantities used in the statements *)

(** The relative error bound of one rounding, 2^-52. *)
Definition eps : Q := 1 # 4503599627370496.

Definition Q2 (e : Z) : Q := (2 ^ e)%Q.

(** The grade letter of an integer percentage, by the threshold table. *)
Definition gradeTable (n : Z) : string :=
  if 90 <=? n then "A+"
  else if 80 <=? n then "A"
  else if 70 <=? n then "B+"
  else if 60 <=? n then "B"
  else if 50 <=? n then "C"
  else "F".

(** The grade letter of a rational percentage, by the same table. *)
Definition gradeOfValue (q : Q) : string :=
  if Qle_bool 90 q then "A+"
  else if Qle_bool 80 q then "A"
  else if Qle_bool 70 q then "B+"
  else if Qle_bool 60 q then "B"
  else if Qle_bool 50 q then "C"
  else "F".

(** The integer nearest to [100 * score / total], a tie going up. *)
Definition roundedPercent (score total : Z) : Z :=
  (200 * score + total) / (2 * total).

(** A list of [n] questions with the ids ["0"], ["1"], ... *)
Definition sampleQuestion (n : nat) : TestQuestion :=
  {| q_id := pretty n; q_question := "Q"; q_options := ["a"; "b"];
     q_correctAnswer := 0; q_category := "General" |}.

Definition sampleQuestions (n : nat) : list TestQuestion :=
  sampleQuestion <$> seq 0 n.

Definition answer (correct : bool) : TestAnswer :=
  {| questionId := "1"; selectedAnswer := 0; isCorrect := correct |}.

(** The number of answers whose correctness flag is set. *)
Fixpoint countCorrect (answers : list TestAnswer) : Z :=
  match answers with
  | [] => 0
  | a :: rest => (if isCorrect a then 1 else 0) + countCorrect rest
  end.

(** A participant id whose character codes sum to 79667: an opening brace
    followed by 652 times the letter z. *)
Definition id79667 : string :=
  String "{" (string_of_list_ascii (replicate 652 "z"%char)).

(** The world once the pending call has been answered. *)
Definition answered (w : World) : World :=
  {| statusDocs := statusDocs w; testResults := testResults w;
     clock := clock w + latency (respond w (calls w)); calls := S (calls w);
     respond := respond w |}.

Definition withStatusDocs (docs : gmap string StatusDoc) (w : World) : World :=
  {| statusDocs := docs; testResults := testResults w;
     clock := clock w; calls := calls w; respond := respond w |}.

(** The violation count a stored state carries for a participant. *)
Definition storedCount (id : string) (w : World) : Z :=
  match statusDocs w !! id with
  | Some data => default 0 (doc_tabSwitchCount data)
  | None => 0
  end.

Definition permissionDenied : JsError :=
  {| err_code := Some "permission-denied"; err_message := "Missing or insufficient permissions." |}.

Definition ok (ms : Z) : Response :=
  {| latency := ms; failure := None; assignedId := "r1" |}.

Definition failing (ms : Z) (error : JsError) : Response :=
  {| latency := ms; failure := Some error; assignedId := "r1" |}.

(** A store without documents, at time 1000, that answers every call in
    10 ms and successfully. *)
Definition quietWorld : World :=
  {| statusDocs := ∅; testResults := []; clock := 1000; calls := 0;
     respond := fun _ => ok 10 |}.

(** The same store, except that its second answer is a permission error. *)
Definition deniedOnceWorld : World :=
  {| statusDocs := ∅; testResults := []; clock := 1000; calls := 0;
     respond := fun n => if decide (n = 1%nat) then failing 10 permissionDenied else ok 10 |}.

Definition sampleResult : TestResult :=
  {| r_userId := "p1"; r_userName := "Ada"; r_userEmail := "ada@example.org";
     r_admissionNumber := "A1"; r_branch := "CSE"; r_score := 2;
     r_totalQuestions := 3; r_percentage := of_int 67; r_timeSpent := 600;
     r_answers := [answer true; answer false; answer true];
     r_completedAt := 5; r_status := completed |}.

(** For an array length [n]: at every state [s] whose product with [n] is
    a multiple [233280 * c] of the modulus, the binary64 draw is [c]. *)
Definition exactOnMultiples (n : Z) : bool :=
  forallb (fun c =>
             if (233280 * c) mod n =? 0 then
               match Math_floor (mul (div (of_int (233280 * c / n)) (of_int 233280)) (of_int n)) with
               | Some j => j =? c
               | None => false
               end
             else true)
          (seqZ 0 n).

(** ** The question catalogue

    The twenty questions of [getTestQuestions], in the order of the
    source; the texts are the UTF-8 bytes of the source. *)
Definition getTestQuestions : list TestQuestion := [
  {| q_id := "1";
     q_question := "In networking, IP is used for uniquely identifying devices and routing packets across networks?";
     q_options := ["Internet Protocol"; "Internal Processing"; "Interface Program"; "Information Packet"];
     q_correctAnswer := 0;
     q_category := "Technical" |};
  {| q_id := "2";
     q_question := (("What will the following code print in most C-like languages? int a=5/2; printf(" +:+ String "034"%char "%d") +:+ String "034"%char ",a);");
     q_options := ["2"; "2.5"; "3"; "Error"];
     q_correctAnswer := 0;
     q_category := "Technical" |};
  {| q_id := "3";
     q_question := "In an ordered array, a search algorithm repeatedly divides the search interval in half until the target element is found or the interval becomes empty. What is the time complexity of this algorithm?";
     q_options := ["O(1)"; "O(n)"; "O(log n)"; "O(n log n)"];
     q_correctAnswer := 2;
     q_category := "Technical" |};
  {| q_id := "4";
     q_question := "What is the output of: print(2 ** 3 ** 2)";
     q_options := ["64"; "512"; "256"; "8"];
     q_correctAnswer := 1;
     q_category := "Technical" |};
  {| q_id := "5";
     q_question := "Which of the following represents a semantic HTML element?";
     q_options := ["<div>"; "<section>"; "<span>"; "<b>"];
     q_correctAnswer := 1;
     q_category := "Technical" |};
  {| q_id := "6";
     q_question := "Which CSS property is used to create rounded corners?";
     q_options := ["border-width"; "border style"; "border-radius"; "border-round"];
     q_correctAnswer := 2;
     q_category := "Technical" |};
  {| q_id := "7";
     q_question := "In the context of web communication, when a client requests a resource that does not exist on the server, the server responds with which HTTP status code?";
     q_options := ["200"; "301"; "404"; "500"];
     q_correctAnswer := 2;
     q_category := "Technical" |};
  {| q_id := "8";
     q_question := "In JavaScript, == and === differ because:";
     q_options := ["== checks value only, === checks value + type"; "== checks type only, === checks value only"; "Both are identical"; "=== is only used in TypeScript"];
     q_correctAnswer := 0;
     q_category := "Technical" |};
  {| q_id := "9";
     q_question := "Which of the following is a non-volatile memory?";
     q_options := ["RAM"; "ROM"; "Cache"; "Register"];
     q_correctAnswer := 1;
     q_category := "Technical" |};
  {| q_id := "10";
     q_question := "for(int i=0; i<5; i++) {if(i==3) break;  System.out.print(i);";
     q_options := ["012"; "0123"; "123"; "0"];
     q_correctAnswer := 0;
     q_category := "Technical" |};
  {| q_id := "11";
     q_question := "In rectangle ABCD, the diagonals AC and BD intersect at point E. If the area of the rectangle is 120 square units, what is the area of triangle EBC (the triangle with vertices E,B,C)?";
     q_options := ["30"; "40"; "60"; "20"];
     q_correctAnswer := 0;
     q_category := "General" |};
  {| q_id := "12";
     q_question := "In binary, what is the result of 1011 + 110?";
     q_options := ["10001"; "11001"; "10000"; "11101"];
     q_correctAnswer := 0;
     q_category := "Technical" |};
  {| q_id := "13";
     q_question := "If in a certain code “CAT” is written as “DBU”, then “DOG” will be coded as:";
     q_options := ["EPH"; "DPH"; "EOH"; "ENH"];
     q_correctAnswer := 0;
     q_category := "General" |};
  {| q_id := "14";
     q_question := "Which is greater: log₂(16) or log₃(27)?";
     q_options := ["log₂(16)"; "log₃(27)"; "Both equal"; "Cannot be compared"];
     q_correctAnswer := 2;
     q_category := "General" |};
  {| q_id := "15";
     q_question := "A person faces North, turns 90° clockwise, then 180° clockwise, and again 90° clockwise. Which direction is he facing now?";
     q_options := ["North"; "East"; "South"; "West"];
     q_correctAnswer := 0;
     q_category := "General" |};
  {| q_id := "16";
     q_question := "If 15 men can build a wall in 12 days, how many days will 10 men take?";
     q_options := ["12"; "15"; "18"; "20"];
     q_correctAnswer := 2;
     q_category := "General" |};
  {| q_id := "17";
     q_question := "The mean of five numbers is 20. If one number is excluded, the mean becomes 18. Find the excluded number.";
     q_options := ["30"; "32"; "28"; "26"];
     q_correctAnswer := 0;
     q_category := "General" |};
  {| q_id := "18";
     q_question := "If in a certain code, TABLE is written as YFQJK, how is CHAIR written in that code?";
     q_options := ["HMQWX"; "HMPWX"; "HMPWY"; "GMPWY"];
     q_correctAnswer := 1;
     q_category := "General" |};
  {| q_id := "19";
     q_question := "What is the sum of the squares of the roots of the equation x2−6x+8=0";
     q_options := ["20"; "34"; "28"; "16"];
     q_correctAnswer := 2;
     q_category := "General" |};
  {| q_id := "20";
     q_question := "Five people (A, B, C, D, E) are sitting in a row. A is to the left of B and right of C. D is to the right of E and left of A. Who is sitting in the middle?";
     q_options := ["A"; "B"; "C"; "D"];
     q_correctAnswer := 3;
     q_category := "General" |}
].

Definition getRandomizedTestQuestions (userId : string) : option (list TestQuestion) :=
  let baseQuestions := getTestQuestions in
  shuffleQuestions baseQuestions userId.

(** ** The rest of the session status store *)

(** [{ ...status, lastActivity: new Date() }] *)
Definition withLastActivity (status : StatusDoc) (now : Z) : StatusDoc :=
  {| doc_userId := doc_userId status; doc_hasSubmitted := doc_hasSubmitted status;
     doc_submissionDate := doc_submissionDate status;
     doc_tabSwitchCount := doc_tabSwitchCount status;
     doc_isTestCancelled := doc_isTestCancelled status;
     doc_lastActivity := Some now |}.

(** [updateUserTestStatus(userId, status)]: [status] is a partial record,
    a document in which fields may be missing.  The object written when
    the document does not exist lists the defaults first and spreads
    [status] over them. *)
Definition updateUserTestStatus (id : string) (status : StatusDoc) : Async () :=
  try_catch
    (now ← newDate;
     updateDoc id (withLastActivity status now))
    (fun error =>
       (* If document doesn't exist, create it *)
       if bool_decide (err_code error = Some "not-found") then
         now ← newDate;
         setDoc id (merge status (docOfStatus (defaultStatus id now)))
       else throw (Error (messageOr error "Failed to update user test status"))).

Definition cancelTest (id : string) : Async () :=
  try_catch
    (statusDoc ← getDoc id;
     now ← newDate;
     match statusDoc with
     | Some _ =>
         updateDoc id {| doc_userId := None; doc_hasSubmitted := None;
                         doc_submissionDate := None; doc_tabSwitchCount := None;
                         doc_isTestCancelled := Some true; doc_lastActivity := Some now |}
     | None =>
         setDoc id {| doc_userId := Some id; doc_hasSubmitted := Some false;
                      doc_submissionDate := None; doc_tabSwitchCount := Some 0;
                      doc_isTestCancelled := Some true; doc_lastActivity := Some now |}
     end)
    (fun error => throw (Error (messageOr error "Failed to cancel test"))).

(** ** Reading the results of a participant *)

Definition getTestResultsDocs : Async (list (string * TestResult)) :=
  fun w => (Return (testResults w), w).

(** [getDocs(query(collection(db, 'testResults'), where('userId', '==',
    userId)))] followed by the [forEach] that pushes [{ id: doc.id,
    ...doc.data() }]: the documents of the participant, each with its
    identity, in the order in which the store enumerates them; the list of
    the world stands for that order. *)
Definition getDocsWhereUserId (id : string) : Async (list (string * TestResult)) :=
  _ ← roundTrip;
  docs ← getTestResultsDocs;
  mret (filter (fun d => r_userId d.2 = id) docs).

(** The comparator [(a, b) => dateB.getTime() - dateA.getTime()]. *)
Definition byCompletedAtDesc (a b : string * TestResult) : Z :=
  r_completedAt b.2 - r_completedAt a.2.

(** [Array.prototype.sort(compareFn)] is a stable sort: [a] comes before
    [b] when [compareFn(a, b)] is negative, and elements that compare
    equal keep their order.  Insertion from the right, each element before
    the first one it does not have to follow, computes that order. *)
Fixpoint insertBy {A} (compareFn : A -> A -> Z) (x : A) (l : list A) : list A :=
  match l with
  | [] => [x]
  | y :: l' =>
      if compareFn x y <=? 0 then x :: y :: l' else y :: insertBy compareFn x l'
  end.

Definition sortBy {A} (compareFn : A -> A -> Z) (l : list A) : list A :=
  foldr (insertBy compareFn) [] l.

Definition getUserTestResults (id : string) : Async (list (string * TestResult)) :=
  try_catch
    (results ← getDocsWhereUserId id;
     (* Sort results by completedAt in descending order on client side *)
     mret (sortBy byCompletedAtDesc results))
    (fun error => throw (Error (messageOr error "Failed to get test results"))).

(** ** Further quantities used in the statements *)

Definition storedSubmitted (id : string) (w : World) : bool :=
  match statusDocs w !! id with
  | Some data => default false (doc_hasSubmitted data)
  | None => false
  end.

Definition storedCancelled (id : string) (w : World) : bool :=
  match statusDocs w !! id with
  | Some data => default false (doc_isTestCancelled data)
  | None => false
  end.

(** The world after [n] calls of [incrementTabSwitchCount], one after the
    other. *)
Fixpoint afterIncrements (n : nat) (id : string) (w : World) : World :=
  match n with
  | O => w
  | S n' => snd (incrementTabSwitchCount id (afterIncrements n' id w))
  end.

(** The five operations of the status store, to state what all of them
    keep. *)
Inductive StatusOp :=
| OpGet | OpUpdate (status : StatusDoc) | OpMark | OpIncrement | OpCancel.

Definition runStatusOp (op : StatusOp) (id : string) (w : World) : World :=
  match op with
  | OpGet => snd (getUserTestStatus id w)
  | OpUpdate status => snd (updateUserTestStatus id status w)
  | OpMark => snd (markTestAsSubmitted id w)
  | OpIncrement => snd (incrementTabSwitchCount id w)
  | OpCancel => snd (cancelTest id w)
  end.

(** The error an operation threw, if it threw. *)
Definition thrown {A} (r : Outcome A * World) : option JsError :=
  match r.1 with
  | Throw error => Some error
  | Return _ => None
  end.

(** An id whose character codes sum to 65 + 233280: the letter Q followed
    by 1912 times the letter z. *)
Definition id233345 : string :=
  String "Q" (string_of_list_ascii (replicate 1912 "z"%char)).

(** A store that holds a record for p1 with three violations, submitted
    at 900. *)
Definition busyWorld : World :=
  {| statusDocs :=
       {[ "p1" := {| doc_userId := Some "p1"; doc_hasSubmitted := Some true;
                     doc_submissionDate := Some 900; doc_tabSwitchCount := Some 3;
                     doc_isTestCancelled := Some false; doc_lastActivity := Some 900 |} ]};
     testResults := [("r0", sampleResult)]; clock := 1000; calls := 0;
     respond := fun _ => ok 10 |}.

(** A store that refuses every call. *)
Definition downWorld : World :=
  {| statusDocs := ∅; testResults := []; clock := 1000; calls := 0;
     respond := fun _ => failing 10 permissionDenied |}.

(** Newest first: the order of [byCompletedAtDesc]. *)
Definition newestFirst (a b : string * TestResult) : Prop :=
  r_completedAt b.2 <= r_completedAt a.2.

(** The six grades from the lowest to the highest. *)
Definition gradeRank (g : string) : Z :=
  if decide (g = "A+") then 5
  else if decide (g = "A") then 4
  else if decide (g = "B+") then 3
  else if decide (g = "B") then 2
  else if decide (g = "C") then 1
  else 0.

(** The store of [busyWorld] when its first answer is a permission error. *)
Definition busyDeniedWorld : World :=
  {| statusDocs := statusDocs busyWorld; testResults := testResults busyWorld;
     clock := 1000; calls := 0;
     respond := fun n => if decide (n = 0%nat) then failing 10 permissionDenied else ok 10 |}.

(** ** Proof steps for the operations of the store *)

(** Unfold an operation down to the calls of the store. *)
Ltac unfold_store :=
  unfold submitTestResult, getUserTestResults, getDocsWhereUserId,
    getTestResultsDocs, getUserTestStatus, updateUserTestStatus,
    markTestAsSubmitted, incrementTabSwitchCount, cancelTest, try_catch, getDoc,
    setDoc, updateDoc, addDoc, roundTrip, newDate, getStatusDocs, setStatusDocs,
    appendResult, mbind, async_bind, mret, async_ret, throw.

(** Case analysis on what the store answers and holds. *)
Ltac case_store :=
  repeat (match goal with
          | |- context [match ?x with Some _ => _ | None => _ end] => destruct x eqn:?
          | |- context [if ?b then _ else _] => destruct b eqn:?
          end; cbn).
(** * Facts about binary64 arithmetic *)

Section Binary64Facts.

Lemma digits2_pos_bounds p :
  2 ^ (Z.pos (digits2_pos p) - 1) <= Z.pos p < 2 ^ Z.pos (digits2_pos p).
Proof.
  induction p as [p IH|p IH|]; simpl digits2_pos.
  - rewrite Pos2Z.inj_succ.
    replace (Z.succ (Z.pos (digits2_pos p)) - 1) with (Z.succ (Z.pos (digits2_pos p) - 1)) by lia.
    rewrite !Z.pow_succ_r by lia. lia.
  - rewrite Pos2Z.inj_succ.
    replace (Z.succ (Z.pos (digits2_pos p)) - 1) with (Z.succ (Z.pos (digits2_pos p) - 1)) by lia.
    rewrite !Z.pow_succ_r by lia. lia.
  - simpl. lia.
Qed.

Lemma Zdigits2_bounds m :
  0 < m -> 2 ^ (Zdigits2 m - 1) <= m < 2 ^ Zdigits2 m.
Proof. destruct m as [|p|p]; try lia. intros _. apply digits2_pos_bounds. Qed.

Lemma Zdigits2_unique m n :
  2 ^ (n - 1) <= m < 2 ^ n -> 0 < m -> Zdigits2 m = n.
Proof.
  intros [Hlo Hhi] Hm.
  destruct (Zdigits2_bounds m Hm) as [Dlo Dhi].
  assert (Hd : 0 < Zdigits2 m) by (destruct m; simpl; lia).
  assert (Hn : 0 < n).
  { destruct (Z_lt_le_dec 0 n); [done|]. rewrite Z.pow_neg_r in Hlo by lia.
    destruct (Z.eq_dec n 0) as [->|]; [simpl in Hhi; lia|].
    rewrite Z.pow_neg_r in Hhi by lia. lia. }
  destruct (Z_lt_le_dec (Zdigits2 m) n) as [Hlt|Hge].
  - assert (2 ^ Zdigits2 m <= 2 ^ (n - 1)) by (apply Z.pow_le_mono_r; lia). lia.
  - destruct (Z_lt_le_dec n (Zdigits2 m)) as [Hlt|Hge']; [|lia].
    assert (2 ^ n <= 2 ^ (Zdigits2 m - 1)) by (apply Z.pow_le_mono_r; lia). lia.
Qed.

Lemma shr_1_m mrs : 0 <= shr_m mrs -> shr_m (shr_1 mrs) = shr_m mrs / 2.
Proof.
  destruct mrs as [m r s]. simpl. intros Hm.
  rewrite <- Z.div2_div.
  destruct m as [|[p|p|]|p]; simpl; try reflexivity; lia.
Qed.

Lemma iter_pos_nat {A} (f : A -> A) p x :
  SpecFloat.iter_pos f p x = Nat.iter (Pos.to_nat p) f x.
Proof.
  revert x. induction p as [p IH|p IH|]; intros x; simpl SpecFloat.iter_pos.
  - rewrite !IH, Pos2Nat.inj_xI, <- Nat.iter_add, <- Nat.iter_succ_r.
    f_equal. lia.
  - rewrite !IH, Pos2Nat.inj_xO, <- Nat.iter_add. f_equal. lia.
  - reflexivity.
Qed.

Lemma shr_m_iter n mrs :
  0 <= shr_m mrs ->
  shr_m (Nat.iter n shr_1 mrs) = shr_m mrs / 2 ^ Z.of_nat n.
Proof.
  intros Hm. induction n as [|n IH].
  - simpl. now rewrite Z.div_1_r.
  - rewrite Nat.iter_succ, shr_1_m, IH.
    + rewrite Nat2Z.inj_succ, Z.pow_succ_r by lia.
      rewrite Z.div_div by lia. f_equal. lia.
    + rewrite IH. apply Z.div_pos; lia.
Qed.

Lemma loc_of_shr_record_of_loc m l :
  loc_of_shr_record (shr_record_of_loc m l) = l.
Proof. destruct l as [|[]]; reflexivity. Qed.

Lemma shr_m_of_loc m l : shr_m (shr_record_of_loc m l) = m.
Proof. destruct l as [|[]]; reflexivity. Qed.

(** [shr_fexp] divides the mantissa by the power of two that brings it to
    the format. *)
Lemma shr_fexp_spec m e l :
  0 <= m ->
  let k := Z.max 0 (fexp prec emax (Zdigits2 m + e) - e) in
  exists mrs, shr_fexp prec emax m e l = (mrs, e + k)
    /\ shr_m mrs = m / 2 ^ k
    /\ (k = 0 -> loc_of_shr_record mrs = l).
Proof.
  intros Hm k. unfold shr_fexp, shr. subst k.
  destruct (fexp prec emax (Zdigits2 m + e) - e) as [|p|p] eqn:E.
  - exists (shr_record_of_loc m l). change (Z.max 0 0) with 0.
    rewrite Z.add_0_r, shr_m_of_loc, Z.div_1_r.
    split; [reflexivity|]. split; [reflexivity|]. intros _. apply loc_of_shr_record_of_loc.
  - rewrite Z.max_r by lia.
    exists (SpecFloat.iter_pos shr_1 p (shr_record_of_loc m l)).
    split; [reflexivity|]. split; [|lia].
    rewrite iter_pos_nat, shr_m_iter by (rewrite shr_m_of_loc; lia).
    rewrite shr_m_of_loc, positive_nat_Z. reflexivity.
  - rewrite Z.max_l by lia.
    exists (shr_record_of_loc m l).
    rewrite Z.add_0_r, shr_m_of_loc, Z.div_1_r.
    split; [reflexivity|]. split; [reflexivity|]. intros _. apply loc_of_shr_record_of_loc.
Qed.

Lemma round_nearest_even_range m l :
  m <= round_nearest_even m l <= m + 1.
Proof. destruct l as [|[]]; simpl; try lia. destruct (Z.even m); lia. Qed.


Lemma fexp_normal d : -1074 <= d - 53 -> fexp prec emax d = d - 53.
Proof. unfold fexp, SpecFloat.emin, prec, emax. lia. Qed.

(** Rounding a positive mantissa of at least 53 bits, away from the
    subnormal range and from overflow: the result is a normal number whose
    mantissa is the quotient [mx / 2^k] or its successor. *)
Lemma binary_round_aux_spec sx (mx ex : Z) lx :
  0 < mx ->
  let k := Zdigits2 mx - 53 in
  0 <= k -> -1074 <= ex + k -> ex + k + 1 <= 971 ->
  exists (m : positive) (e q' : Z),
    binary_round_aux prec emax sx mx ex lx = S754_finite sx m e
    /\ 2 ^ 52 <= Z.pos m < 2 ^ 53
    /\ (e = ex + k \/ e = ex + k + 1)
    /\ Z.pos m * 2 ^ (e - ex - k) = q'
    /\ mx / 2 ^ k <= q' <= mx / 2 ^ k + 1
    /\ (k = 0 -> lx = loc_Exact -> q' = mx).
Proof.
  intros Hmx k Hk Hlo Hhi.
  destruct (Zdigits2_bounds mx Hmx) as [Dlo Dhi].
  assert (Hq : 2 ^ 52 <= mx / 2 ^ k < 2 ^ 53).
  { assert (0 < 2 ^ k) by (apply Z.pow_pos_nonneg; lia).
    split.
    - apply Z.div_le_lower_bound; [lia|].
      rewrite <- Z.pow_add_r by lia.
      replace (k + 52) with (Zdigits2 mx - 1) by lia. exact Dlo.
    - apply Z.div_lt_upper_bound; [lia|].
      rewrite <- Z.pow_add_r by lia.
      replace (k + 53) with (Zdigits2 mx) by lia. exact Dhi. }
  unfold binary_round_aux.
  destruct (shr_fexp_spec mx ex lx) as (mrs & E1 & M1 & L1); [lia|].
  rewrite fexp_normal in E1, M1, L1 by lia.
  replace (Z.max 0 (Zdigits2 mx + ex - 53 - ex)) with k in E1, M1, L1 by lia.
  rewrite E1.
  set (q' := round_nearest_even (shr_m mrs) (loc_of_shr_record mrs)).
  assert (Hq' : mx / 2 ^ k <= q' <= mx / 2 ^ k + 1).
  { subst q'. rewrite <- M1. apply round_nearest_even_range. }
  assert (Hex : k = 0 -> lx = loc_Exact -> q' = mx).
  { intros K0 ->. subst q'. rewrite (L1 K0), M1, K0. simpl. apply Z.div_1_r. }
  destruct (shr_fexp_spec q' (ex + k) loc_Exact) as (mrs2 & E2 & M2 & _); [lia|].
  destruct (Z_lt_le_dec q' (2 ^ 53)) as [Hlt|Hge].
  - assert (D : Zdigits2 q' = 53) by (apply Zdigits2_unique; simpl (53 - 1); lia).
    rewrite D, fexp_normal in E2, M2 by lia.
    replace (Z.max 0 (53 + (ex + k) - 53 - (ex + k))) with 0 in E2, M2 by lia.
    rewrite E2. rewrite M2. simpl (2 ^ 0). rewrite Z.div_1_r.
    destruct q' as [|m|m] eqn:Eq'; try lia.
    exists m, (ex + k + 0), (Z.pos m).
    replace (ex + k + 0 <=? emax - prec) with true
      by (symmetry; apply Z.leb_le; unfold prec, emax; lia).
    split; [reflexivity|]. split; [lia|]. split; [lia|].
    split; [replace (ex + k + 0 - ex - k) with 0 by lia; simpl; lia|].
    split; [lia|]. exact Hex.
  - assert (Eq' : q' = 2 ^ 53) by lia.
    assert (D : Zdigits2 q' = 54) by (rewrite Eq'; reflexivity).
    rewrite D, fexp_normal in E2, M2 by lia.
    replace (Z.max 0 (54 + (ex + k) - 53 - (ex + k))) with 1 in E2, M2 by lia.
    rewrite E2. rewrite M2, Eq'.
    change (2 ^ 53 / 2 ^ 1) with (Z.pos (2 ^ 52)).
    exists (2 ^ 52)%positive, (ex + k + 1), q'.
    replace (ex + k + 1 <=? emax - prec) with true
      by (symmetry; apply Z.leb_le; unfold prec, emax; lia).
    split; [reflexivity|]. split; [simpl; lia|]. split; [lia|].
    split; [replace (ex + k + 1 - ex - k) with 1 by lia; rewrite Eq'; reflexivity|].
    split; [lia|]. exact Hex.
Qed.


Lemma Pos_iter_xO p d : Z.pos (Pos.iter xO p d) = Z.pos p * 2 ^ Z.pos d.
Proof.
  induction d as [|d IH] using Pos.peano_ind.
  - simpl. lia.
  - rewrite Pos.iter_succ, Pos2Z.inj_succ, Z.pow_succ_r by lia.
    rewrite Pos2Z.inj_xO, IH. lia.
Qed.

(** Integers below 2^53 are represented exactly. *)
Lemma binary_round_exact sx p :
  Z.pos p < 2 ^ 53 ->
  exists m, binary_round prec emax sx p 0 = S754_finite sx m (Zdigits2 (Z.pos p) - 53)
    /\ 2 ^ 52 <= Z.pos m < 2 ^ 53
    /\ Z.pos m = Z.pos p * 2 ^ (53 - Zdigits2 (Z.pos p)).
Proof.
  intros Hn.
  destruct (digits2_pos_bounds p) as [Dlo Dhi].
  set (d := Z.pos (digits2_pos p)) in *.
  assert (Hd : d <= 53).
  { destruct (Z_lt_le_dec 53 d); [|lia].
    assert (2 ^ 53 <= 2 ^ (d - 1)) by (apply Z.pow_le_mono_r; lia). lia. }
  assert (Hs : 2 ^ 52 <= Z.pos p * 2 ^ (53 - d) < 2 ^ 53).
  { assert (E1 : 2 ^ 52 = 2 ^ (d - 1) * 2 ^ (53 - d))
      by (rewrite <- Z.pow_add_r by lia; f_equal; lia).
    assert (E2 : 2 ^ 53 = 2 ^ d * 2 ^ (53 - d))
      by (rewrite <- Z.pow_add_r by lia; f_equal; lia).
    assert (0 < 2 ^ (53 - d)) by (apply Z.pow_pos_nonneg; lia).
    rewrite E1, E2. split; [apply Z.mul_le_mono_nonneg_r; lia|apply Z.mul_lt_mono_pos_r; lia]. }
  unfold binary_round.
  fold d. rewrite fexp_normal by lia.
  assert (Hal : exists mz, shl_align p 0 (d + 0 - 53) = (mz, d - 53)
                  /\ Z.pos mz = Z.pos p * 2 ^ (53 - d)).
  { unfold shl_align. destruct (d + 0 - 53 - 0) as [|q|q] eqn:E; try lia.
    - exists p. split; [f_equal; lia|]. replace (53 - d) with 0 by lia. simpl. lia.
    - exists (Pos.iter xO p q). split; [f_equal; lia|].
      rewrite Pos_iter_xO. f_equal. f_equal. lia. }
  destruct Hal as (mz & -> & Emz).
  destruct (binary_round_aux_spec sx (Z.pos mz) (d - 53) loc_Exact) as
    (m & e & q' & E & Hm & He & Hq & _ & Hex); try lia.
  - replace (Zdigits2 (Z.pos mz)) with 53; [lia|].
    symmetry. apply Zdigits2_unique; simpl (53 - 1); lia.
  - assert (D : Zdigits2 (Z.pos mz) = 53) by (apply Zdigits2_unique; simpl (53 - 1); lia).
    replace (Zdigits2 (Z.pos mz) - 53) with 0 in * by lia. lia.
  - assert (D : Zdigits2 (Z.pos mz) = 53) by (apply Zdigits2_unique; simpl (53 - 1); lia).
    replace (Zdigits2 (Z.pos mz) - 53) with 0 in * by lia. lia.
  - assert (D : Zdigits2 (Z.pos mz) = 53) by (apply Zdigits2_unique; simpl (53 - 1); lia).
    rewrite D in *. simpl (53 - 53) in *.
    specialize (Hex eq_refl eq_refl). subst q'.
    assert (e = d - 53).
    { destruct He as [He|He]; [lia|].
      match type of Hex with context [2 ^ ?z] => replace z with 1 in Hex by lia end.
      change (2 ^ 1) with 2 in Hex. lia. }
    subst e.
    match type of Hex with context [2 ^ ?z] => replace z with 0 in Hex by lia end.
    change (2 ^ 0) with 1 in Hex.
    exists m. rewrite E. simpl Zdigits2. fold d. split; [reflexivity|]. split; [lia|]. lia.
Qed.

Lemma of_int_pos n :
  0 < n < 2 ^ 53 ->
  exists m, of_int n = S754_finite false m (Zdigits2 n - 53)
    /\ 2 ^ 52 <= Z.pos m < 2 ^ 53
    /\ Z.pos m = n * 2 ^ (53 - Zdigits2 n).
Proof.
  intros [Hn0 Hn]. destruct n as [|p|p]; try lia.
  apply (binary_round_exact false p Hn).
Qed.

Lemma of_int_neg n :
  - 2 ^ 53 < n < 0 -> exists m e, of_int n = S754_finite true m e.
Proof.
  intros [Hn Hn0]. destruct n as [|p|p]; try lia.
  destruct (binary_round_exact true p) as (m & E & _); [lia|].
  exists m, (Zdigits2 (Z.pos p) - 53). exact E.
Qed.



Lemma Q2_pos e : (0 < Q2 e)%Q.
Proof. apply Qpower_0_lt. reflexivity. Qed.

Lemma Q2_add a b : (Q2 (a + b) == Q2 a * Q2 b)%Q.
Proof. apply Qpower_plus. intros H. discriminate H. Qed.

Lemma Q2_Z k : 0 <= k -> (Q2 k == inject_Z (2 ^ k))%Q.
Proof. intros Hk. symmetry. apply (Zpower_Qpower 2 k Hk). Qed.

(** The rounded value is within one unit in the last place of the exact
    one: a relative error of at most 2^-52. *)
Lemma binary_round_aux_bounds (mx ex : Z) lx :
  0 < mx ->
  let k := Zdigits2 mx - 53 in
  0 <= k -> -1074 <= ex + k -> ex + k + 1 <= 971 ->
  exists (m : positive) (e : Z),
    binary_round_aux prec emax false mx ex lx = S754_finite false m e
    /\ 2 ^ 52 <= Z.pos m < 2 ^ 53
    /\ ex + k <= e <= ex + k + 1
    /\ (inject_Z mx * Q2 ex * (1 - eps) <= inject_Z (Z.pos m) * Q2 e
        <= inject_Z mx * Q2 ex * (1 + eps))%Q.
Proof.
  intros Hmx k Hk Hlo Hhi.
  destruct (binary_round_aux_spec false mx ex lx Hmx Hk Hlo Hhi)
    as (m & e & q' & E & Hm & He & Hq & Hq' & _).
  fold k in He, Hq, Hq'.
  exists m, e. split; [exact E|]. split; [exact Hm|]. split; [lia|].
  destruct (Zdigits2_bounds mx Hmx) as [Dlo _].
  assert (K0 : 0 < 2 ^ k) by (apply Z.pow_pos_nonneg; lia).
  assert (K52 : 2 ^ k * 2 ^ 52 <= mx).
  { rewrite <- Z.pow_add_r by lia. replace (k + 52) with (Zdigits2 mx - 1) by lia. exact Dlo. }
  pose proof (Z.mul_div_le mx (2 ^ k) K0) as D1.
  pose proof (Z.mul_succ_div_gt mx (2 ^ k) K0) as D2.
  assert (P1 : mx - 2 ^ k < q' * 2 ^ k) by nia.
  assert (P2 : q' * 2 ^ k <= mx + 2 ^ k) by nia.
  assert (Heq : (inject_Z (Z.pos m) * Q2 e == inject_Z (q' * 2 ^ k) * Q2 ex)%Q).
  { replace e with ((e - ex - k) + (k + ex)) at 1 by lia.
    rewrite !Q2_add, (Q2_Z (e - ex - k)), (Q2_Z k) by lia.
    rewrite <- Hq, !inject_Z_mult. ring. }
  rewrite Heq.
  pose proof (Q2_pos ex) as HE.
  apply Z.lt_le_incl in P1.
  rewrite Zle_Qle in P1, P2, K52.
  unfold Z.sub in P1.
  rewrite inject_Z_plus, inject_Z_opp, inject_Z_mult in P1.
  rewrite inject_Z_plus, inject_Z_mult in P2.
  rewrite inject_Z_mult in K52.
  rewrite inject_Z_mult.
  set (X := inject_Z mx) in *. set (Kq := inject_Z (2 ^ k)) in *.
  set (P := (inject_Z q' * Kq)%Q) in *. set (Ee := Q2 ex) in *.
  clearbody P Ee Kq X.
  change (inject_Z (2 ^ 52)) with (4503599627370496 # 1)%Q in K52.
  unfold eps.
  assert (B1 : (X * (1 - (1 # 4503599627370496)) <= P)%Q) by lra.
  assert (B2 : (P <= X * (1 + (1 # 4503599627370496)))%Q) by lra.
  split.
  - assert (Hx : (X * Ee * (1 - (1 # 4503599627370496)) == X * (1 - (1 # 4503599627370496)) * Ee)%Q) by ring.
    rewrite Hx.
    apply Qmult_le_compat_r; [exact B1|]. apply Qlt_le_weak, HE.
  - assert (Hx : (X * Ee * (1 + (1 # 4503599627370496)) == X * (1 + (1 # 4503599627370496)) * Ee)%Q) by ring.
    rewrite Hx.
    apply Qmult_le_compat_r; [exact B2|]. apply Qlt_le_weak, HE.
Qed.


Lemma Zdigits2_range m a b :
  0 <= a -> 2 ^ a <= m < 2 ^ b -> a < Zdigits2 m <= b.
Proof.
  intros Ha [Hlo Hhi].
  assert (Hm : 0 < m) by (assert (0 < 2 ^ a) by (apply Z.pow_pos_nonneg; lia); lia).
  destruct (Zdigits2_bounds m Hm) as [Dlo Dhi].
  assert (Hd : 0 < Zdigits2 m) by (destruct m; simpl; lia).
  split.
  - destruct (Z_lt_le_dec a (Zdigits2 m)); [done|].
    assert (2 ^ Zdigits2 m <= 2 ^ a) by (apply Z.pow_le_mono_r; lia). lia.
  - destruct (Z_lt_le_dec b (Zdigits2 m)); [|lia].
    assert (2 ^ b <= 2 ^ (Zdigits2 m - 1)) by (apply Z.pow_le_mono_r; lia). lia.
Qed.

(** The product of two normal numbers. *)
Lemma mul_normal mx ex my ey :
  2 ^ 52 <= Z.pos mx < 2 ^ 53 -> 2 ^ 52 <= Z.pos my < 2 ^ 53 ->
  -1074 <= ex + ey + 52 -> ex + ey + 54 <= 971 ->
  exists m e,
    mul (S754_finite false mx ex) (S754_finite false my ey) = S754_finite false m e
    /\ 2 ^ 52 <= Z.pos m < 2 ^ 53
    /\ ex + ey + 52 <= e <= ex + ey + 54
    /\ ((inject_Z (Z.pos mx) * Q2 ex) * (inject_Z (Z.pos my) * Q2 ey) * (1 - eps)
          <= inject_Z (Z.pos m) * Q2 e
          <= (inject_Z (Z.pos mx) * Q2 ex) * (inject_Z (Z.pos my) * Q2 ey) * (1 + eps))%Q.
Proof.
  intros Hx Hy Hlo Hhi.
  assert (HM : 2 ^ 104 <= Z.pos (mx * my) < 2 ^ 106).
  { rewrite Pos2Z.inj_mul.
    change (2 ^ 104) with (2 ^ 52 * 2 ^ 52). change (2 ^ 106) with (2 ^ 53 * 2 ^ 53).
    split; [apply Z.mul_le_mono_nonneg; lia|apply Z.mul_lt_mono_nonneg; lia]. }
  pose proof (Zdigits2_range (Z.pos (mx * my)) 104 106 ltac:(lia) HM) as HD.
  destruct (binary_round_aux_bounds (Z.pos (mx * my)) (ex + ey) loc_Exact)
    as (m & e & E & Hm & He & Hb); try lia.
  exists m, e. split; [exact E|]. split; [exact Hm|]. split; [lia|].
  assert (Heq : (inject_Z (Z.pos (mx * my)) * Q2 (ex + ey)
                 == (inject_Z (Z.pos mx) * Q2 ex) * (inject_Z (Z.pos my) * Q2 ey))%Q).
  { rewrite Pos2Z.inj_mul, inject_Z_mult, Q2_add. ring. }
  rewrite <- Heq. exact Hb.
Qed.

(** The quotient of two normal numbers, with the bounds in product form. *)
Lemma div_normal mx ex my ey :
  2 ^ 52 <= Z.pos mx < 2 ^ 53 -> 2 ^ 52 <= Z.pos my < 2 ^ 53 ->
  -1074 <= ex - ey - 53 -> ex - ey - 51 <= 971 ->
  exists m e,
    div (S754_finite false mx ex) (S754_finite false my ey) = S754_finite false m e
    /\ 2 ^ 52 <= Z.pos m < 2 ^ 53
    /\ ex - ey - 53 <= e <= ex - ey - 51
    /\ ((inject_Z (Z.pos mx) * Q2 ex) * (1 - eps) * (1 - eps)
          <= (inject_Z (Z.pos m) * Q2 e) * (inject_Z (Z.pos my) * Q2 ey)
          <= (inject_Z (Z.pos mx) * Q2 ex) * (1 + eps))%Q.
Proof.
  intros Hx Hy Hlo Hhi.
  unfold div, SFdiv, SFdiv_core_binary.
  assert (Dx : Zdigits2 (Z.pos mx) = 53) by (apply Zdigits2_unique; simpl (53 - 1); lia).
  assert (Dy : Zdigits2 (Z.pos my) = 53) by (apply Zdigits2_unique; simpl (53 - 1); lia).
  rewrite Dx, Dy, fexp_normal by lia.
  replace (Z.min (53 + ex - (53 + ey) - 53) (ex - ey)) with (ex - ey - 53) by lia.
  replace (ex - ey - (ex - ey - 53)) with 53 by lia.
  rewrite Z.shiftl_mul_pow2 by lia.
  destruct (Z.div_eucl (Z.pos mx * 2 ^ 53) (Z.pos my)) as [q r] eqn:Ediv.
  assert (Eq : q = (Z.pos mx * 2 ^ 53) / Z.pos my) by (unfold Z.div; now rewrite Ediv).
  assert (Hq : 2 ^ 52 <= q < 2 ^ 54).
  { rewrite Eq. split.
    - apply Z.div_le_lower_bound; lia.
    - apply Z.div_lt_upper_bound; lia. }
  pose proof (Zdigits2_range q 52 54 ltac:(lia) Hq) as HD.
  simpl xorb.
  destruct (binary_round_aux_bounds q (ex - ey - 53) (new_location (Z.pos my) r))
    as (m & e & E & Hm & He & Hb1 & Hb2); try lia.
  exists m, e. split; [exact E|]. split; [exact Hm|]. split; [lia|].
  pose proof (Z.mul_div_le (Z.pos mx * 2 ^ 53) (Z.pos my) ltac:(lia)) as D1.
  pose proof (Z.mul_succ_div_gt (Z.pos mx * 2 ^ 53) (Z.pos my) ltac:(lia)) as D2.
  rewrite <- Eq in D1, D2.
  assert (D3 : Z.pos mx * 2 ^ 53 - Z.pos my <= Z.pos my * q) by lia.
  assert (D4 : Z.pos my * 2 ^ 52 <= Z.pos mx * 2 ^ 53) by lia.
  set (Y := (inject_Z (Z.pos my) * Q2 ey)%Q).
  assert (HY : (0 < Y)%Q).
  { subst Y. apply Qmult_lt_0_compat; [|apply Q2_pos].
    rewrite <- (Zlt_Qlt 0). lia. }
  assert (Heq : (inject_Z q * Q2 (ex - ey - 53) * Y
                 == inject_Z (Z.pos my * q) * Q2 (ex - 53))%Q).
  { subst Y. replace (ex - 53) with ((ex - ey - 53) + ey) by lia.
    rewrite Q2_add, inject_Z_mult. ring. }
  assert (HX : (inject_Z (Z.pos mx) * Q2 ex == inject_Z (Z.pos mx * 2 ^ 53) * Q2 (ex - 53))%Q).
  { replace ex with (53 + (ex - 53)) at 1 by lia.
    rewrite Q2_add, (Q2_Z 53), inject_Z_mult by lia. ring. }
  pose proof (Q2_pos (ex - 53)) as HE.
  unfold Z.sub in D3.
  rewrite Zle_Qle in D1, D3, D4.
  rewrite inject_Z_plus, inject_Z_opp in D3.
  rewrite inject_Z_mult in D4.
  change (inject_Z (2 ^ 52)) with (4503599627370496 # 1)%Q in D4.
  rewrite HX.
  set (M' := inject_Z (Z.pos mx * 2 ^ 53)) in *.
  set (QM := inject_Z (Z.pos my * q)) in *.
  set (My := inject_Z (Z.pos my)) in *.
  set (Ee := Q2 (ex - 53)) in *.
  set (R := (inject_Z (Z.pos m) * Q2 e)%Q) in *.
  set (Qv := (inject_Z q * Q2 (ex - ey - 53))%Q) in *.
  assert (HQv : (0 <= Qv)%Q).
  { subst Qv. apply Qmult_le_0_compat; [|apply Qlt_le_weak, Q2_pos].
    rewrite <- (Zle_Qle 0). lia. }
  clearbody M' QM My Ee R Qv Y.
  unfold eps in *.
  assert (B1 : (M' * (1 - (1 # 4503599627370496)) <= QM)%Q) by lra.
  split.
  - apply Qle_trans with (Qv * (1 - (1 # 4503599627370496)) * Y)%Q.
    + assert (Hc : (Qv * (1 - (1 # 4503599627370496)) * Y
                    == (Qv * Y) * (1 - (1 # 4503599627370496)))%Q) by ring.
      rewrite Hc, Heq.
      assert (Hc2 : (M' * Ee * (1 - (1 # 4503599627370496)) * (1 - (1 # 4503599627370496))
                    == (M' * (1 - (1 # 4503599627370496))) * Ee * (1 - (1 # 4503599627370496)))%Q) by ring.
      rewrite Hc2.
      apply Qmult_le_compat_r; [|lra].
      apply Qmult_le_compat_r; [exact B1|lra].
    + apply Qmult_le_compat_r; [exact Hb1|lra].
  - apply Qle_trans with (Qv * (1 + (1 # 4503599627370496)) * Y)%Q.
    + apply Qmult_le_compat_r; [exact Hb2|lra].
    + assert (Hc : (Qv * (1 + (1 # 4503599627370496)) * Y
                    == (Qv * Y) * (1 + (1 # 4503599627370496)))%Q) by ring.
      rewrite Hc, Heq.
      apply Qmult_le_compat_r; [|lra].
      apply Qmult_le_compat_r; [exact D1|lra].
Qed.


Lemma of_int_pos_value n :
  0 < n < 2 ^ 53 ->
  exists m, of_int n = S754_finite false m (Zdigits2 n - 53)
    /\ 2 ^ 52 <= Z.pos m < 2 ^ 53
    /\ (inject_Z (Z.pos m) * Q2 (Zdigits2 n - 53) == inject_Z n)%Q.
Proof.
  intros Hn. destruct (of_int_pos n Hn) as (m & E & Hm & Hv).
  exists m. split; [exact E|]. split; [exact Hm|].
  assert (Hd : 0 < Zdigits2 n <= 53) by (apply (Zdigits2_range n 0 53); simpl (2 ^ 0); lia).
  rewrite Hv, inject_Z_mult, <- (Q2_Z (53 - Zdigits2 n)) by lia.
  rewrite <- Qmult_assoc, <- Q2_add.
  replace (53 - Zdigits2 n + (Zdigits2 n - 53)) with 0 by lia.
  unfold Q2. simpl. ring.
Qed.

Lemma floor_finite_le m e :
  e <= 0 -> (inject_Z (floor_finite false m e) <= inject_Z (Z.pos m) * Q2 e)%Q.
Proof.
  intros He. unfold floor_finite.
  destruct (Z.leb_spec 0 e) as [H0|H0].
  - replace e with 0 by lia. unfold Q2. simpl. rewrite Z.mul_1_r. lra.
  - assert (K0 : 0 < 2 ^ (- e)) by (apply Z.pow_pos_nonneg; lia).
    pose proof (Z.mul_div_le (Z.pos m) (2 ^ (- e)) K0) as D.
    rewrite Zle_Qle, inject_Z_mult, <- (Q2_Z (- e)) in D by lia.
    pose proof (Q2_pos e) as HE.
    assert (H1 : (Q2 (- e) * Q2 e == 1)%Q).
    { rewrite <- Q2_add. replace (- e + e) with 0 by lia. reflexivity. }
    set (J := inject_Z (Z.pos m / 2 ^ (- e))) in *.
    set (M := inject_Z (Z.pos m)) in *.
    assert (Hj : (J == (Q2 (- e) * J) * Q2 e)%Q).
    { transitivity ((Q2 (- e) * Q2 e) * J)%Q; [rewrite H1; ring|ring]. }
    rewrite Hj. apply Qmult_le_compat_r; [exact D|lra].
Qed.

(** The index drawn for position [n - 1] lies in the array: the two
    roundings cannot carry the product of a quotient below 1 with [n] up
    to [n]. *)
Lemma draw_in_range s n :
  0 <= s < 233280 -> 1 <= n < 2 ^ 32 ->
  exists j,
    Math_floor (mul (div (of_int s) (of_int 233280)) (of_int n)) = Some j
    /\ 0 <= j < n.
Proof.
  intros Hs Hn.
  destruct (of_int_pos_value n ltac:(lia)) as (mn & En & Hmn & Vn).
  assert (Dn : 0 < Zdigits2 n <= 32) by (apply (Zdigits2_range n 0 32); simpl (2 ^ 0); lia).
  assert (Ey : of_int 233280 = S754_finite false 8015439766487040 (-35)) by reflexivity.
  destruct (Z.eq_dec s 0) as [->|Hs0].
  - exists 0. rewrite En. split; [reflexivity|lia].
  - destruct (of_int_pos_value s ltac:(lia)) as (ms & Es & Hms & Vs).
    assert (Ds : 0 < Zdigits2 s <= 18) by (apply (Zdigits2_range s 0 18); simpl (2 ^ 0); lia).
    rewrite Es, Ey, En.
    destruct (div_normal ms (Zdigits2 s - 53) 8015439766487040 (-35))
      as (mr & er & Er & Hmr & Her & _ & Hr); try lia.
    rewrite Er.
    destruct (mul_normal mr er mn (Zdigits2 n - 53))
      as (mp & ep & Ep & Hmp & Hep & _ & Hp); try lia.
    rewrite Ep. simpl Math_floor.
    exists (floor_finite false mp ep). split; [reflexivity|].
    split.
    + unfold floor_finite. destruct (0 <=? ep); [lia|].
      apply Z.div_pos; [lia|]. apply Z.pow_pos_nonneg; lia.
    + pose proof (floor_finite_le mp ep ltac:(lia)) as Hj.
      rewrite Zlt_Qlt.
      rewrite Vs in Hr. rewrite Vn in Hp.
      assert (Hy : (inject_Z (Z.pos 8015439766487040) * Q2 (-35) == 233280)%Q) by reflexivity.
      rewrite Hy in Hr.
      assert (Hs' : (inject_Z s <= 233279)%Q).
      { change 233279%Q with (inject_Z 233279). rewrite <- Zle_Qle. lia. }
      assert (Hn' : (1 <= inject_Z n)%Q).
      { change 1%Q with (inject_Z 1). rewrite <- Zle_Qle. lia. }
      set (J := inject_Z (floor_finite false mp ep)) in *.
      set (P := (inject_Z (Z.pos mp) * Q2 ep)%Q) in *.
      set (R := (inject_Z (Z.pos mr) * Q2 er)%Q) in *.
      set (S := inject_Z s) in *. set (N := inject_Z n) in *.
      clearbody J P R S N. unfold eps in *.
      assert (H1 : (R * 233280 * N <= S * (1 + (1 # 4503599627370496)) * N)%Q)
        by (apply Qmult_le_compat_r; [exact Hr|lra]).
      assert (H2 : (S * (1 + (1 # 4503599627370496)) * N
                    <= 233279 * (1 + (1 # 4503599627370496)) * N)%Q).
      { apply Qmult_le_compat_r; [|lra]. apply Qmult_le_compat_r; [exact Hs'|lra]. }
      set (V := (R * N)%Q) in *. 
      assert (HV : (V * 233280 <= 233279 * (1 + (1 # 4503599627370496)) * N)%Q).
      { apply Qle_trans with (S * (1 + (1 # 4503599627370496)) * N)%Q; [|exact H2].
        assert (Hc : (V * 233280 == R * 233280 * N)%Q) by (subst V; ring).
        rewrite Hc. exact H1. }
      clearbody V. lra.
Qed.


Lemma value_scaled m e :
  e < 0 -> (inject_Z (Z.pos m) * Q2 e * inject_Z (2 ^ (- e)) == inject_Z (Z.pos m))%Q.
Proof.
  intros He. rewrite <- (Q2_Z (- e)) by lia.
  assert (H1 : (Q2 e * Q2 (- e) == 1)%Q).
  { rewrite <- Q2_add. replace (e + - e) with 0 by lia. reflexivity. }
  transitivity (inject_Z (Z.pos m) * (Q2 e * Q2 (- e)))%Q; [ring|].
  rewrite H1. ring.
Qed.

(** When [s * n] is not a multiple of 233280 the exact product
    [s * n / 233280] is at least 1/233280 away from the integers around
    it, more than the two roundings can move it: the draw is the exact
    quotient. *)
Lemma draw_not_multiple s n :
  0 <= s < 233280 -> 1 <= n < 2 ^ 32 -> (s * n) mod 233280 <> 0 ->
  Math_floor (mul (div (of_int s) (of_int 233280)) (of_int n)) = Some (s * n / 233280).
Proof.
  intros Hs Hn Hne.
  assert (Hs0 : s <> 0) by (intros ->; apply Hne; reflexivity).
  destruct (of_int_pos_value n ltac:(lia)) as (mn & En & Hmn & Vn).
  assert (Dn : 0 < Zdigits2 n <= 32) by (apply (Zdigits2_range n 0 32); simpl (2 ^ 0); lia).
  assert (Ey : of_int 233280 = S754_finite false 8015439766487040 (-35)) by reflexivity.
  destruct (of_int_pos_value s ltac:(lia)) as (ms & Es & Hms & Vs).
  assert (Ds : 0 < Zdigits2 s <= 18) by (apply (Zdigits2_range s 0 18); simpl (2 ^ 0); lia).
  rewrite Es, Ey, En.
  destruct (div_normal ms (Zdigits2 s - 53) 8015439766487040 (-35))
    as (mr & er & Er & Hmr & Her & Hr1 & Hr2); try lia.
  rewrite Er.
  destruct (mul_normal mr er mn (Zdigits2 n - 53))
    as (mp & ep & Ep & Hmp & Hep & Hp1 & Hp2); try lia.
  rewrite Ep. cbn [Math_floor]. f_equal. unfold floor_finite.
  replace (0 <=? ep) with false by (symmetry; apply Z.leb_gt; lia).
  set (K := 2 ^ (- ep)).
  assert (HK : 0 < K) by (apply Z.pow_pos_nonneg; lia).
  set (c := s * n / 233280).
  assert (Hc : 233280 * c + 1 <= s * n <= 233280 * (c + 1) - 1).
  { pose proof (Z.mul_div_le (s * n) 233280 ltac:(lia)) as D1.
    pose proof (Z.mul_succ_div_gt (s * n) 233280 ltac:(lia)) as D2.
    fold c in D1, D2.
    assert (233280 * c <> s * n); [|lia].
    intros Heq. apply Hne. rewrite <- Heq, Z.mul_comm. apply Z.mod_mul. lia. }
  assert (Hsn : s * n <= 233279 * 4294967295) by nia.
  (* over the rationals *)
  rewrite Vs in Hr1, Hr2. rewrite Vn in Hp1, Hp2.
  assert (Hy : (inject_Z (Z.pos 8015439766487040) * Q2 (-35) == 233280)%Q) by reflexivity.
  rewrite Hy in Hr1, Hr2.
  pose proof (value_scaled mp ep ltac:(lia)) as HP. fold K in HP.
  set (P := (inject_Z (Z.pos mp) * Q2 ep)%Q) in *.
  set (R := (inject_Z (Z.pos mr) * Q2 er)%Q) in *.
  assert (HN : (0 <= inject_Z n)%Q) by (rewrite <- (Zle_Qle 0); lia).
  assert (A1 : (inject_Z (s * n) * (1 - eps) * (1 - eps) <= (R * inject_Z n) * 233280)%Q).
  { rewrite inject_Z_mult.
    assert (Hx : (inject_Z s * inject_Z n * (1 - eps) * (1 - eps)
                 == inject_Z s * (1 - eps) * (1 - eps) * inject_Z n)%Q) by ring.
    assert (Hx2 : (R * inject_Z n * 233280 == R * 233280 * inject_Z n)%Q) by ring.
    rewrite Hx, Hx2. apply Qmult_le_compat_r; [exact Hr1|exact HN]. }
  assert (A2 : ((R * inject_Z n) * 233280 <= inject_Z (s * n) * (1 + eps))%Q).
  { rewrite inject_Z_mult.
    assert (Hx : (inject_Z s * inject_Z n * (1 + eps)
                 == inject_Z s * (1 + eps) * inject_Z n)%Q) by ring.
    assert (Hx2 : (R * inject_Z n * 233280 == R * 233280 * inject_Z n)%Q) by ring.
    rewrite Hx, Hx2. apply Qmult_le_compat_r; [exact Hr2|exact HN]. }
  assert (B1 : (233280 * inject_Z c + 1 <= inject_Z (s * n))%Q).
  { change 233280%Q with (inject_Z 233280). change 1%Q with (inject_Z 1).
    rewrite <- inject_Z_mult, <- inject_Z_plus, <- Zle_Qle. lia. }
  assert (B2 : (inject_Z (s * n) <= 233280 * inject_Z c + 233279)%Q).
  { change 233280%Q with (inject_Z 233280). change 233279%Q with (inject_Z 233279).
    rewrite <- inject_Z_mult, <- inject_Z_plus, <- Zle_Qle. lia. }
  assert (B3 : (0 <= inject_Z (s * n) <= 1001925920762560)%Q).
  { change 0%Q with (inject_Z 0). change 1001925920762560%Q with (inject_Z 1001925920762560).
    rewrite <- !Zle_Qle. nia. }
  set (SN := inject_Z (s * n)) in *. set (RN := (R * inject_Z n)%Q) in *.
  set (C := inject_Z c) in *.
  assert (G1 : (C <= P)%Q) by (clearbody P RN SN C; unfold eps in *; lra).
  assert (G2 : (P < C + 1)%Q) by (clearbody P RN SN C; unfold eps in *; lra).
  assert (HKq : (0 < inject_Z K)%Q) by (rewrite <- (Zlt_Qlt 0); exact HK).
  assert (Z1 : c * K <= Z.pos mp).
  { rewrite Zle_Qle, <- HP, inject_Z_mult. apply Qmult_le_compat_r; [exact G1|lra]. }
  assert (Z2 : Z.pos mp < (c + 1) * K).
  { rewrite Zlt_Qlt, <- HP, inject_Z_mult. apply Qmult_lt_compat_r; [exact HKq|].
    rewrite inject_Z_plus. exact G2. }
  assert (c <= Z.pos mp / K) by (apply Z.div_le_lower_bound; lia).
  assert (Z.pos mp / K < c + 1) by (apply Z.div_lt_upper_bound; lia).
  lia.
Qed.

End Binary64Facts.

(** * Binary64 addition of integers *)

Section Binary64Addition.

Lemma shr_1_even a :
  0 <= a ->
  shr_1 {| shr_m := 2 * a; shr_r := false; shr_s := false |}
  = {| shr_m := a; shr_r := false; shr_s := false |}.
Proof. destruct a as [|p|p]; intros Ha; try lia; reflexivity. Qed.

(** Shifting out bits that are all zero leaves an exact record. *)
Lemma shr_iter_exact n a :
  0 <= a ->
  Nat.iter n shr_1 {| shr_m := a * 2 ^ Z.of_nat n; shr_r := false; shr_s := false |}
  = {| shr_m := a; shr_r := false; shr_s := false |}.
Proof.
  revert a. induction n as [|n IH]; intros a Ha.
  - simpl. rewrite Z.mul_1_r. reflexivity.
  - rewrite Nat2Z.inj_succ, Z.pow_succ_r by lia.
    replace (a * (2 * 2 ^ Z.of_nat n)) with (2 * a * 2 ^ Z.of_nat n) by ring.
    rewrite Nat.iter_succ, IH by lia. apply shr_1_even, Ha.
Qed.

Lemma shr_fexp_exact a k e :
  0 <= a -> 0 <= k ->
  fexp prec emax (Zdigits2 (a * 2 ^ k) + e) - e = k ->
  shr_fexp prec emax (a * 2 ^ k) e loc_Exact
  = ({| shr_m := a; shr_r := false; shr_s := false |}, e + k).
Proof.
  intros Ha Hk E. unfold shr_fexp. rewrite E. unfold shr.
  destruct k as [|p|p]; try lia.
  - simpl (2 ^ 0). rewrite Z.mul_1_r, Z.add_0_r. reflexivity.
  - f_equal. rewrite iter_pos_nat.
    change (shr_record_of_loc (a * 2 ^ Z.pos p) loc_Exact)
      with {| shr_m := a * 2 ^ Z.pos p; shr_r := false; shr_s := false |}.
    rewrite <- (positive_nat_Z p) at 1. apply shr_iter_exact, Ha.
Qed.

(** Rounding a 53-bit mantissa followed by zeros is exact. *)
Lemma binary_round_aux_exact sx a k ex :
  2 ^ 52 <= a < 2 ^ 53 -> 0 <= k -> -1074 <= ex + k -> ex + k <= 971 ->
  binary_round_aux prec emax sx (a * 2 ^ k) ex loc_Exact = S754_finite sx (Z.to_pos a) (ex + k).
Proof.
  intros Ha Hk Hlo Hhi.
  assert (K : 0 < 2 ^ k) by (apply Z.pow_pos_nonneg; lia).
  assert (D : Zdigits2 (a * 2 ^ k) = 53 + k).
  { apply Zdigits2_unique; [|nia].
    replace (53 + k - 1) with (52 + k) by lia. rewrite !Z.pow_add_r by lia. nia. }
  assert (D0 : Zdigits2 a = 53) by (apply Zdigits2_unique; simpl (53 - 1); lia).
  unfold binary_round_aux.
  rewrite shr_fexp_exact; [|lia|lia|rewrite D, fexp_normal by lia; lia].
  cbn [shr_m loc_of_shr_record round_nearest_even].
  pose proof (shr_fexp_exact a 0 (ex + k)) as E2.
  simpl (2 ^ 0) in E2. rewrite Z.mul_1_r in E2.
  rewrite E2; [|lia|lia|rewrite D0, fexp_normal by lia; lia].
  cbn [shr_m]. destruct a as [|m|m]; try lia.
  replace (ex + k + 0 <=? emax - prec) with true
    by (symmetry; apply Z.leb_le; unfold prec, emax; lia).
  rewrite Z.add_0_r. reflexivity.
Qed.

Lemma shl_align_spec mx ex ez :
  ez <= ex ->
  exists m', shl_align mx ex ez = (m', ez) /\ Z.pos m' = Z.pos mx * 2 ^ (ex - ez).
Proof.
  intros H. unfold shl_align. destruct (ez - ex) as [|p|p] eqn:E; try lia.
  - exists mx. split; [f_equal; lia|].
    replace (ex - ez) with 0 by lia. simpl. lia.
  - exists (Pos.iter xO mx p). split; [reflexivity|].
    rewrite Pos_iter_xO. f_equal. f_equal. lia.
Qed.

(** An integer below 2^53 given with trailing zeros rounds to the same
    number as the integer itself. *)
Lemma binary_round_scaled sx p z k :
  Z.pos p = Z.pos z * 2 ^ k -> 0 <= k -> Z.pos z < 2 ^ 53 ->
  binary_round prec emax sx p (- k) = binary_round prec emax sx z 0.
Proof.
  intros Ep Hk Hz.
  destruct (binary_round_exact sx z Hz) as (m & E & Hm & Em). rewrite E.
  set (d := Zdigits2 (Z.pos z)) in *.
  assert (Hd : 0 < d <= 53) by (apply (Zdigits2_range (Z.pos z) 0 53); simpl (2 ^ 0); lia).
  assert (K : 0 < 2 ^ k) by (apply Z.pow_pos_nonneg; lia).
  destruct (Zdigits2_bounds (Z.pos z)) as [Dlo Dhi]; [lia|]. fold d in Dlo, Dhi.
  assert (Dp : Zdigits2 (Z.pos p) = d + k).
  { apply Zdigits2_unique; [|lia]. rewrite Ep.
    replace (d + k - 1) with (d - 1 + k) by lia. rewrite !Z.pow_add_r by lia. nia. }
  unfold binary_round.
  change (Z.pos (digits2_pos p)) with (Zdigits2 (Z.pos p)).
  rewrite Dp, fexp_normal by lia.
  destruct (Z_le_gt_dec (d + k) 53) as [Hs|Hs].
  - destruct (shl_align_spec p (- k) (d + k + - k - 53)) as (m' & -> & Em'); [lia|].
    assert (Emm : Z.pos m' = Z.pos m).
    { rewrite Em', Ep, Em, <- Z.mul_assoc, <- Z.pow_add_r by lia. f_equal. f_equal. lia. }
    injection Emm as ->.
    pose proof (binary_round_aux_exact sx (Z.pos m) 0 (d + k + - k - 53)) as R.
    simpl (2 ^ 0) in R. rewrite Z.mul_1_r in R. rewrite R by lia.
    simpl Z.to_pos. f_equal. lia.
  - assert (Es : shl_align p (- k) (d + k + - k - 53) = (p, - k)).
    { unfold shl_align. destruct (d + k + - k - 53 - - k) eqn:E'; try lia; reflexivity. }
    rewrite Es.
    assert (Epm : Z.pos p = Z.pos m * 2 ^ (d + k - 53)).
    { rewrite Ep, Em, <- Z.mul_assoc, <- Z.pow_add_r by lia. f_equal. f_equal. lia. }
    rewrite Epm, binary_round_aux_exact by lia.
    simpl Z.to_pos. f_equal. lia.
Qed.

Lemma binary_normalize_scaled z k :
  0 <= k -> - 2 ^ 53 < z < 2 ^ 53 ->
  binary_normalize prec emax (z * 2 ^ k) (- k) false = of_int z.
Proof.
  intros Hk Hz.
  assert (K : 0 < 2 ^ k) by (apply Z.pow_pos_nonneg; lia).
  unfold of_int. destruct z as [|p|p].
  - reflexivity.
  - destruct (Z.pos p * 2 ^ k) as [|q|q] eqn:E; try nia.
    unfold binary_normalize. apply binary_round_scaled; lia.
  - destruct (Z.neg p * 2 ^ k) as [|q|q] eqn:E; try nia.
    unfold binary_normalize. apply binary_round_scaled; lia.
Qed.

(** The representation of a non-zero integer below 2^53. *)
Lemma of_int_form a :
  a <> 0 -> - 2 ^ 53 < a < 2 ^ 53 ->
  exists m e,
    of_int a = S754_finite (a <? 0) m e
    /\ - 52 <= e <= 0
    /\ Z.pos m = Z.abs a * 2 ^ (- e).
Proof.
  intros Ha0 Ha.
  assert (F : forall sx p, Z.pos p < 2 ^ 53 ->
              exists m e, binary_round prec emax sx p 0 = S754_finite sx m e
                          /\ - 52 <= e <= 0 /\ Z.pos m = Z.pos p * 2 ^ (- e)).
  { intros sx p Hp. destruct (binary_round_exact sx p Hp) as (m & E & Hm & Em).
    assert (Hd : 0 < Zdigits2 (Z.pos p) <= 53)
      by (apply (Zdigits2_range (Z.pos p) 0 53); simpl (2 ^ 0); lia).
    exists m, (Zdigits2 (Z.pos p) - 53). split; [exact E|]. split; [lia|].
    rewrite Em. f_equal. f_equal. lia. }
  unfold of_int. destruct a as [|p|p]; try lia.
  - destruct (F false p) as (m & e & E & He & Em); [lia|].
    exists m, e. split; [exact E|]. split; [lia|exact Em].
  - destruct (F true p) as (m & e & E & He & Em); [lia|].
    exists m, e. split; [exact E|]. split; [lia|exact Em].
Qed.

(** The binary64 sum of two integers is their sum as long as the three
    are below 2^53 in magnitude. *)
Lemma add_of_int a b :
  - 2 ^ 53 < a < 2 ^ 53 -> - 2 ^ 53 < b < 2 ^ 53 -> - 2 ^ 53 < a + b < 2 ^ 53 ->
  add (of_int a) (of_int b) = of_int (a + b).
Proof.
  intros Ha Hb Hab.
  destruct (Z.eq_dec a 0) as [->|Ha0]; [|destruct (Z.eq_dec b 0) as [->|Hb0]].
  - change (of_int 0) with (S754_zero false). rewrite Z.add_0_l.
    destruct (Z.eq_dec b 0) as [->|Hb0]; [reflexivity|].
    destruct (of_int_form b Hb0 Hb) as (m & e & -> & _). reflexivity.
  - change (of_int 0) with (S754_zero false). rewrite Z.add_0_r.
    destruct (of_int_form a Ha0 Ha) as (m & e & -> & _). reflexivity.
  - destruct (of_int_form a Ha0 Ha) as (ma & ea & -> & Hea & Ema).
    destruct (of_int_form b Hb0 Hb) as (mb & eb & -> & Heb & Emb).
    unfold add, SFadd.
    set (ez := Z.min ea eb).
    destruct (shl_align_spec ma ea ez) as (ma' & -> & Ea'); [lia|].
    destruct (shl_align_spec mb eb ez) as (mb' & -> & Eb'); [lia|].
    cbn [fst].
    assert (Va : cond_Zopp (a <? 0) (Z.pos ma') = a * 2 ^ (- ez)).
    { rewrite Ea', Ema, <- Z.mul_assoc, <- Z.pow_add_r by lia.
      replace (- ea + (ea - ez)) with (- ez) by lia.
      unfold cond_Zopp. destruct (Z.ltb_spec a 0); lia. }
    assert (Vb : cond_Zopp (b <? 0) (Z.pos mb') = b * 2 ^ (- ez)).
    { rewrite Eb', Emb, <- Z.mul_assoc, <- Z.pow_add_r by lia.
      replace (- eb + (eb - ez)) with (- ez) by lia.
      unfold cond_Zopp. destruct (Z.ltb_spec b 0); lia. }
    rewrite Va, Vb, <- Z.mul_add_distr_r.
    replace ez with (- - ez) at 2 by lia.
    apply binary_normalize_scaled; lia.
Qed.

Lemma to_int_of_int_signed n : - 2 ^ 53 < n < 2 ^ 53 -> to_int (of_int n) = Some n.
Proof.
  intros Hn. destruct (Z.eq_dec n 0) as [->|Hn0]; [reflexivity|].
  destruct (of_int_form n Hn0 Hn) as (m & e & -> & He & Em).
  assert (K : 0 < 2 ^ (- e)) by (apply Z.pow_pos_nonneg; lia).
  unfold to_int. destruct (Z.leb_spec 0 e) as [H0|H0].
  - assert (e = 0) by lia. subst e. simpl in Em. f_equal.
    destruct (Z.ltb_spec n 0); lia.
  - assert (Ev : (if n <? 0 then Z.neg m else Z.pos m) = n * 2 ^ (- e))
      by (destruct (Z.ltb_spec n 0); lia).
    rewrite Ev, Z.mod_mul, Z.div_mul by lia. reflexivity.
Qed.

(** [currentCount + 1] is exact below 2^53. *)
Lemma plusOne_exact c : - 2 ^ 53 < c < 2 ^ 53 - 1 -> plusOne c = c + 1.
Proof.
  intros Hc. unfold plusOne.
  rewrite add_of_int, to_int_of_int_signed by lia. reflexivity.
Qed.

(** From 2^53 on it is not: the sum is rounded to the nearest number, an
    even one. *)
Lemma plusOne_rounds :
  plusOne (2 ^ 53) = 2 ^ 53 /\ plusOne (2 ^ 53 + 2) = 2 ^ 53 + 4.
Proof. split; vm_compute; reflexivity. Qed.

End Binary64Addition.

(** * The shuffle *)

Section Shuffle.

Context {A : Type}.
Implicit Types (a l : list A) (i j k : nat).

Lemma charCodeAt0_nonneg c : 0 <= charCodeAt0 c.
Proof. unfold charCodeAt0. apply N2Z.is_nonneg. Qed.

Lemma fold_left_charCodes (chars : list ascii) acc :
  fold_left (fun acc char => acc + charCodeAt0 char) chars acc
  = acc + foldr Z.add 0 (charCodeAt0 <$> chars).
Proof.
  revert acc. induction chars as [|c chars IH]; intros acc; [simpl; lia|].
  cbn [fold_left]. rewrite IH, fmap_cons. cbn [foldr]. lia.
Qed.

(** The [reduce] of the source computes the sum of the character codes. *)
Lemma seedOf_sum userId : seedOf userId = Reference.seed userId.
Proof. unfold seedOf, Reference.seed. now rewrite fold_left_charCodes. Qed.

Lemma seed_nonneg participantId : 0 <= Reference.seed participantId.
Proof.
  unfold Reference.seed.
  induction (list_ascii_of_string participantId) as [|c chars IH]; [simpl; lia|].
  rewrite fmap_cons. cbn [foldr]. pose proof (charCodeAt0_nonneg c). lia.
Qed.

Lemma state_range seed n :
  0 <= seed -> 0 <= Reference.state seed n /\ (n <> O -> Reference.state seed n < 233280).
Proof.
  intros Hs. destruct n as [|n]; simpl.
  - split; [lia|congruence].
  - pose proof (Z.mod_pos_bound (Reference.state seed n * 9301 + 49297) 233280). lia.
Qed.

(** One call of the closure moves the generator to its next state. *)
Lemma seededRandom_state seed n :
  0 <= seed ->
  seededRandom (Reference.state seed n)
  = (Reference.state seed (S n), Reference.generator64 seed (S n)).
Proof.
  intros Hs. unfold seededRandom, Reference.generator64. simpl Reference.state.
  destruct (state_range seed n Hs) as [H0 _].
  rewrite Z.rem_mod_nonneg by lia. reflexivity.
Qed.

Lemma draw64_in_range seed k i :
  0 <= seed -> k <> O -> Z.of_nat i + 1 < 2 ^ 32 ->
  exists z : Z, Math_floor (mul (Reference.generator64 seed k) (of_int (Z.of_nat i + 1))) = Some z
            /\ 0 <= z <= Z.of_nat i.
Proof.
  intros Hs Hk Hi.
  destruct (state_range seed k Hs) as [H0 H1]. specialize (H1 Hk).
  destruct (draw_in_range (Reference.state seed k) (Z.of_nat i + 1)) as (j & E & Hj); [lia|lia|].
  exists j. split; [exact E|lia].
Qed.

(** *** Swapping two elements *)

Lemma insert_head_perm l j (x y : A) :
  l !! j = Some y -> y :: <[j := x]> l ≡ₚ x :: l.
Proof.
  revert j. induction l as [|b l IH]; intros [|j] Hj; simplify_eq/=.
  - apply perm_swap.
  - rewrite perm_swap. rewrite (IH j Hj). apply perm_swap.
Qed.

Lemma insert_insert_perm l i j (x y : A) :
  (i < j)%nat -> l !! i = Some x -> l !! j = Some y ->
  <[i := y]> (<[j := x]> l) ≡ₚ l.
Proof.
  revert i j. induction l as [|b l IH]; intros [|i] [|j] Hij Hi Hj; simplify_eq/=; try lia.
  - now apply insert_head_perm.
  - f_equiv. apply IH; [lia|done|done].
Qed.

Lemma exchange_perm l i j : Reference.exchange l i j ≡ₚ l.
Proof.
  unfold Reference.exchange.
  destruct (l !! i) as [x|] eqn:Hi; [|done].
  destruct (l !! j) as [y|] eqn:Hj; [|done].
  destruct (Nat.lt_total i j) as [H|[->|H]].
  - now apply insert_insert_perm.
  - simplify_eq. rewrite list_insert_insert_eq. now rewrite list_insert_id.
  - rewrite list_insert_insert_ne by lia. now apply insert_insert_perm.
Qed.

Lemma exchange_length l i j : length (Reference.exchange l i j) = length l.
Proof.
  unfold Reference.exchange.
  destruct (l !! i); [|done]. destruct (l !! j); [|done].
  now rewrite !length_insert.
Qed.

(** Inside the array the destructuring assignment of the source is the
    exchange of the two elements. *)
Lemma swap_exchange a i (j : Z) :
  (i < length a)%nat -> 0 <= j < Z.of_nat (length a) ->
  swap a i j = Some (Reference.exchange a i (Z.to_nat j)).
Proof.
  intros Hi Hj. unfold swap, Reference.exchange.
  replace ((0 <=? j) && (j <? Z.of_nat (length a))) with true
    by (symmetry; apply andb_true_iff; split; [apply Z.leb_le|apply Z.ltb_lt]; lia).
  destruct (lookup_lt_is_Some_2 a i Hi) as [x Hx].
  destruct (lookup_lt_is_Some_2 a (Z.to_nat j) ltac:(lia)) as [y Hy].
  rewrite Hx, Hy. f_equal.
  destruct (decide (i = Z.to_nat j)) as [E|E].
  - rewrite <- E in *. now simplify_eq.
  - now rewrite list_insert_insert_ne.
Qed.

(** *** The loop *)

(** After [k] calls of the generator the loop stands at index
    [length - 1 - k]; what remains is the fold of the reference over the
    remaining steps. *)
Lemma shuffleLoop_spec seed len i : forall k a,
  0 <= seed -> length a = len -> (k + i = len - 1)%nat -> Z.of_nat len < 2 ^ 32 ->
  shuffleLoop i (Reference.state seed k) a
  = Some (foldl (fun a k => Reference.exchange a (len - k)
                                (Reference.draw64 seed k (len - k)))
                a (seq (S k) i)).
Proof.
  induction i as [|i IH]; intros k a Hs Hlen Hk Hbound; [reflexivity|].
  cbn [shuffleLoop]. rewrite seededRandom_state by done.
  destruct (draw64_in_range seed (S k) (S i)) as (j & Ej & Hj); [done|done|lia|].
  rewrite Ej.
  rewrite swap_exchange by lia.
  rewrite (IH (S k)); [|done|now rewrite exchange_length|lia|done].
  assert (Ed : Reference.draw64 seed (S k) (S i) = Z.to_nat j)
    by (unfold Reference.draw64; now rewrite Ej).
  cbn [seq foldl]. replace (len - S k)%nat with (S i) by lia.
  now rewrite Ed.
Qed.

End Shuffle.

Lemma shuffleQuestions_reference64 questions userId :
  Z.of_nat (length questions) < 2 ^ 32 ->
  shuffleQuestions questions userId = Some (Reference.shuffle64 questions userId).
Proof.
  intros Hlen. unfold shuffleQuestions, Reference.shuffle64, Reference.fisherYates.
  rewrite seedOf_sum.
  change (Reference.seed userId) with (Reference.state (Reference.seed userId) 0) at 1.
  apply shuffleLoop_spec; [apply seed_nonneg|done|lia|done].
Qed.

Lemma foldl_exchange_perm {A} (f g : nat -> nat) ks (l : list A) :
  foldl (fun a k => Reference.exchange a (f k) (g k)) l ks ≡ₚ l.
Proof.
  revert l. induction ks as [|k ks IH]; intros l; [done|].
  cbn [foldl]. rewrite IH. apply exchange_perm.
Qed.

Lemma fisherYates_perm {A} (draw : nat -> nat -> nat) (l : list A) :
  Reference.fisherYates draw l ≡ₚ l.
Proof.
  unfold Reference.fisherYates.
  apply (foldl_exchange_perm (fun k => (length l - k)%nat)
                             (fun k => draw k (length l - k)%nat)).
Qed.

(** *** The rational reading of the reference, on short arrays *)

Lemma multiples_checked : forallb exactOnMultiples (seqZ 1 44) = true.
Proof. vm_compute. reflexivity. Qed.

Lemma draw_multiple_small s n :
  0 <= s < 233280 -> 1 <= n <= 44 -> (s * n) mod 233280 = 0 ->
  Math_floor (mul (div (of_int s) (of_int 233280)) (of_int n)) = Some (s * n / 233280).
Proof.
  intros Hs Hn Hmod.
  set (c := s * n / 233280).
  assert (Hsn : s * n = 233280 * c) by (apply Z.div_exact; [lia|exact Hmod]).
  assert (Hc : 0 <= c < n) by nia.
  assert (Hdiv : 233280 * c / n = s) by (rewrite <- Hsn; apply Z.div_mul; lia).
  assert (Hm : (233280 * c) mod n = 0) by (rewrite <- Hsn; apply Z.mod_mul; lia).
  pose proof multiples_checked as Hall.
  rewrite forallb_forall in Hall.
  assert (In1 : In n (seqZ 1 44)) by (apply list_elem_of_In, elem_of_seqZ; lia).
  assert (In2 : In c (seqZ 0 n)) by (apply list_elem_of_In, elem_of_seqZ; lia).
  specialize (Hall n In1). unfold exactOnMultiples in Hall.
  rewrite forallb_forall in Hall.
  specialize (Hall c In2). rewrite Hm, Hdiv in Hall. cbn [Z.eqb] in Hall.
  destruct (Math_floor _) as [j|]; [|discriminate Hall].
  f_equal. now apply Z.eqb_eq.
Qed.

Lemma draw_exact_small s n :
  0 <= s < 233280 -> 1 <= n <= 44 ->
  Math_floor (mul (div (of_int s) (of_int 233280)) (of_int n)) = Some (s * n / 233280).
Proof.
  intros Hs Hn. destruct (Z.eq_dec ((s * n) mod 233280) 0) as [H|H].
  - now apply draw_multiple_small.
  - apply draw_not_multiple; [lia|lia|exact H].
Qed.

Lemma Qfloor_quotient a b :
  Qfloor (inject_Z a / 233280 * inject_Z b) = a * b / 233280.
Proof.
  assert (H : (inject_Z a / 233280 * inject_Z b == (a * b) # 233280)%Q).
  { unfold Qeq, Qdiv, Qmult, Qinv, inject_Z. cbn. lia. }
  rewrite H. reflexivity.
Qed.

Lemma draw64_draw_small seed k i :
  0 <= seed -> k <> O -> (i < 44)%nat ->
  Reference.draw64 seed k i = Reference.draw seed k i.
Proof.
  intros Hs Hk Hi.
  destruct (state_range seed k Hs) as [H0 H1]. specialize (H1 Hk).
  unfold Reference.draw64, Reference.generator64, Reference.draw, Reference.generator.
  rewrite draw_exact_small by lia. cbn [default].
  now rewrite Qfloor_quotient.
Qed.

Lemma foldl_ext_in {A B} (f g : A -> B -> A) (l : list B) (a : A) :
  (forall a x, x ∈ l -> f a x = g a x) -> foldl f a l = foldl g a l.
Proof.
  revert a. induction l as [|x l IH]; intros a H; [reflexivity|].
  cbn [foldl]. rewrite (H a x) by apply list_elem_of_here.
  apply IH. intros a' y Hy. apply H. now apply list_elem_of_further.
Qed.

(** On arrays of fewer than 45 elements the two readings of the reference
    give the same order. *)
Lemma shuffle64_shuffle_short questions participantId :
  (length questions < 45)%nat ->
  Reference.shuffle64 questions participantId = Reference.shuffle questions participantId.
Proof.
  intros Hlen. unfold Reference.shuffle64, Reference.shuffle, Reference.fisherYates.
  apply foldl_ext_in. intros a k Hk.
  apply elem_of_seq in Hk.
  rewrite draw64_draw_small; [reflexivity|apply seed_nonneg|lia|lia].
Qed.

(** * Scoring *)

Section Scoring.

Lemma to_int_of_int n : 0 <= n < 2 ^ 53 -> to_int (of_int n) = Some n.
Proof.
  intros Hn. destruct (Z.eq_dec n 0) as [->|Hn0]; [reflexivity|].
  destruct (of_int_pos n ltac:(lia)) as (m & E & Hm & Hv).
  assert (Hd : 0 < Zdigits2 n <= 53) by (apply (Zdigits2_range n 0 53); simpl (2 ^ 0); lia).
  rewrite E. unfold to_int.
  destruct (Z.leb_spec 0 (Zdigits2 n - 53)) as [H0|H0].
  - assert (D : Zdigits2 n = 53) by lia. rewrite D in *.
    change (2 ^ (53 - 53)) with 1 in *. f_equal. lia.
  - replace (- (Zdigits2 n - 53)) with (53 - Zdigits2 n) by lia.
    assert (K0 : 0 < 2 ^ (53 - Zdigits2 n)) by (apply Z.pow_pos_nonneg; lia).
    rewrite Hv, Z.mod_mul, Z.div_mul by lia. reflexivity.
Qed.

(** [(2 m + K) / (2 K)] is the integer nearest to [m / K], a tie going up. *)
Lemma round_quotient_bounds m K W :
  0 < K -> (2 * W - 3) * K <= 2 * m < (2 * W + 1) * K ->
  W - 1 <= (2 * m + K) / (2 * K) <= W.
Proof.
  intros HK [Hlo Hhi]. split.
  - apply Z.div_le_lower_bound; nia.
  - assert ((2 * m + K) / (2 * K) < W + 1); [|lia].
    apply Z.div_lt_upper_bound; nia.
Qed.

Lemma round_quotient_exact m K W :
  0 < K -> (2 * W - 1) * K <= 2 * m < (2 * W + 1) * K ->
  (2 * m + K) / (2 * K) = W.
Proof.
  intros HK [Hlo Hhi].
  assert (W <= (2 * m + K) / (2 * K)) by (apply Z.div_le_lower_bound; nia).
  assert ((2 * m + K) / (2 * K) < W + 1) by (apply Z.div_lt_upper_bound; nia).
  lia.
Qed.

(** Twice the value of a number with a negative exponent, scaled back to
    its mantissa. *)
Lemma twice_value_scaled m e :
  e < 0 -> (2 * (inject_Z (Z.pos m) * Q2 e) * inject_Z (2 ^ (- e)) == inject_Z (2 * Z.pos m))%Q.
Proof.
  intros He. rewrite <- (Q2_Z (- e)) by lia.
  assert (H1 : (Q2 e * Q2 (- e) == 1)%Q).
  { rewrite <- Q2_add. replace (e + - e) with 0 by lia. reflexivity. }
  rewrite inject_Z_mult.
  transitivity (inject_Z 2 * inject_Z (Z.pos m) * (Q2 e * Q2 (- e)))%Q; [ring|].
  rewrite H1. ring.
Qed.


(** The percentage of [s] correct answers out of [t]: the two roundings of
    the quotient and of the product move the value by less than the
    distance between [100 s / t] and the nearest half-integer, unless
    [100 s / t] is a half-integer itself. *)
Lemma percent_rounding s t :
  0 <= s <= t -> 1 <= t < 2 ^ 32 ->
  exists p,
    to_int (Math_round (mul (div (of_int s) (of_int t)) (of_int 100))) = Some p
    /\ roundedPercent s t - 1 <= p <= roundedPercent s t
    /\ ((200 * s + t) mod (2 * t) <> 0 -> p = roundedPercent s t).
Proof.
  intros Hs Ht.
  destruct (of_int_pos_value t ltac:(lia)) as (mt & Et & Hmt & Vt).
  assert (Dt : 0 < Zdigits2 t <= 32) by (apply (Zdigits2_range t 0 32); simpl (2 ^ 0); lia).
  assert (E100 : of_int 100 = S754_finite false 7036874417766400 (-46)) by reflexivity.
  set (W := roundedPercent s t).
  assert (HW : 2 * t * W <= 200 * s + t < 2 * t * (W + 1)).
  { unfold W, roundedPercent.
    pose proof (Z.mul_div_le (200 * s + t) (2 * t) ltac:(lia)).
    pose proof (Z.mul_succ_div_gt (200 * s + t) (2 * t) ltac:(lia)). lia. }
  destruct (Z.eq_dec s 0) as [->|Hs0].
  - exists 0. rewrite Et, E100. split; [reflexivity|].
    assert (W = 0) by (unfold W, roundedPercent; apply Z.div_small; lia). lia.
  - destruct (of_int_pos_value s ltac:(lia)) as (ms & Es & Hms & Vs).
    assert (Ds : 0 < Zdigits2 s <= 32) by (apply (Zdigits2_range s 0 32); simpl (2 ^ 0); lia).
    rewrite Es, Et, E100.
    destruct (div_normal ms (Zdigits2 s - 53) mt (Zdigits2 t - 53))
      as (mr & er & Er & Hmr & Her & Hr1 & Hr2); try lia.
    rewrite Er.
    destruct (mul_normal mr er 7036874417766400 (-46))
      as (mp & ep & Ep & Hmp & Hep & Hp1 & Hp2); try lia.
    rewrite Ep. unfold Math_round.
    replace (0 <=? ep) with false by (symmetry; apply Z.leb_gt; lia).
    replace (- ep + 1) with (Z.succ (- ep)) by lia.
    rewrite Z.pow_succ_r by lia.
    set (K := 2 ^ (- ep)).
    assert (HK : 0 < K) by (apply Z.pow_pos_nonneg; lia).
    fold (of_int ((2 * Z.pos mp + K) / (2 * K))).
    (* the bounds, over the rationals *)
    rewrite Vs, Vt in Hr1, Hr2.
    assert (H100 : (inject_Z (Z.pos 7036874417766400) * Q2 (-46) == 100)%Q) by reflexivity.
    rewrite H100 in Hp1, Hp2.
    pose proof (twice_value_scaled mp ep ltac:(lia)) as H2P. fold K in H2P.
    set (P := (inject_Z (Z.pos mp) * Q2 ep)%Q) in *.
    set (R := (inject_Z (Z.pos mr) * Q2 er)%Q) in *.
    assert (HT : (1 <= inject_Z t <= 4294967295)%Q).
    { change 1%Q with (inject_Z 1). change 4294967295%Q with (inject_Z 4294967295).
      rewrite <- !Zle_Qle. lia. }
    assert (HS : (1 <= inject_Z s <= inject_Z t)%Q).
    { change 1%Q with (inject_Z 1). rewrite <- !Zle_Qle. lia. }
    assert (HW1 : (2 * (inject_Z t * inject_Z W) <= 200 * inject_Z s + inject_Z t)%Q).
    { rewrite <- !inject_Z_mult. change 2%Q with (inject_Z 2). change 200%Q with (inject_Z 200).
      rewrite <- !inject_Z_mult, <- inject_Z_plus, <- Zle_Qle. lia. }
    assert (HW2 : (200 * inject_Z s + inject_Z t + 1
                   <= 2 * (inject_Z t * inject_Z W) + 2 * inject_Z t)%Q).
    { rewrite <- !inject_Z_mult. change 2%Q with (inject_Z 2). change 200%Q with (inject_Z 200).
      change 1%Q with (inject_Z 1).
      rewrite <- !inject_Z_mult, <- !inject_Z_plus, <- Zle_Qle. lia. }
    assert (A3 : (R * inject_Z t * 100 * (1 - eps) <= P * inject_Z t)%Q).
    { assert (Hc : (R * inject_Z t * 100 * (1 - eps) == R * 100 * (1 - eps) * inject_Z t)%Q) by ring.
      rewrite Hc. apply Qmult_le_compat_r; [exact Hp1|lra]. }
    assert (A4 : (P * inject_Z t <= R * inject_Z t * 100 * (1 + eps))%Q).
    { assert (Hc : (R * inject_Z t * 100 * (1 + eps) == R * 100 * (1 + eps) * inject_Z t)%Q) by ring.
      rewrite Hc. apply Qmult_le_compat_r; [exact Hp2|lra]. }
    set (T := inject_Z t) in *. set (S := inject_Z s) in *.
    set (TW := (T * inject_Z W)%Q) in *.
    set (RT := (R * T)%Q) in *. set (PT := (P * T)%Q) in *.
    assert (G1 : (PT < TW + T * (1 # 2))%Q).
    { clearbody PT RT TW S T. unfold eps in *. lra. }
    assert (G2 : (TW - T * (3 # 2) <= PT)%Q).
    { clearbody PT RT TW S T. unfold eps in *. lra. }
    assert (G3 : (200 * s + t) mod (2 * t) <> 0 -> (TW - T * (1 # 2) <= PT)%Q).
    { intros Hne.
      assert (HW3 : (2 * TW + 1 <= 200 * S + T)%Q).
      { subst TW T S. rewrite <- !inject_Z_mult. change 2%Q with (inject_Z 2).
        change 200%Q with (inject_Z 200). change 1%Q with (inject_Z 1).
        rewrite <- !inject_Z_mult, <- !inject_Z_plus, <- Zle_Qle.
        assert (2 * t * W <> 200 * s + t); [|lia].
        intros Heq. apply Hne. rewrite <- Heq, Z.mul_comm. apply Z.mod_mul. lia. }
      clearbody PT RT TW S T. unfold eps in *. lra. }
    (* back to the integers *)
    assert (HTpos : (0 < T)%Q) by lra.
    assert (HKq : (0 < inject_Z K)%Q) by (rewrite <- (Zlt_Qlt 0); exact HK).
    assert (Z1 : 2 * Z.pos mp < (2 * W + 1) * K).
    { rewrite Zlt_Qlt, <- H2P, inject_Z_mult.
      apply Qmult_lt_compat_r; [exact HKq|].
      rewrite inject_Z_plus, inject_Z_mult. change (inject_Z 2) with 2%Q. change (inject_Z 1) with 1%Q.
      apply (Qmult_lt_r _ _ T HTpos).
      assert (Hc : (2 * P * T == 2 * PT)%Q) by (subst PT; ring). rewrite Hc.
      assert (Hc2 : ((2 * inject_Z W + 1) * T == 2 * TW + T)%Q) by (subst TW; ring). rewrite Hc2.
      clearbody PT TW T. lra. }
    assert (Z2 : (2 * W - 3) * K <= 2 * Z.pos mp).
    { rewrite Zle_Qle, <- H2P, inject_Z_mult.
      apply Qmult_le_compat_r; [|lra].
      unfold Z.sub. rewrite inject_Z_plus, inject_Z_mult.
      change (inject_Z 2) with 2%Q. change (inject_Z (- (3))) with (- (3))%Q.
      apply (Qmult_le_r _ _ T HTpos).
      assert (Hc : (2 * P * T == 2 * PT)%Q) by (subst PT; ring). rewrite Hc.
      assert (Hc2 : ((2 * inject_Z W + - (3)) * T == 2 * TW - 3 * T)%Q) by (subst TW; ring). rewrite Hc2.
      clearbody PT TW T. lra. }
    assert (Z3 : (200 * s + t) mod (2 * t) <> 0 -> (2 * W - 1) * K <= 2 * Z.pos mp).
    { intros Hne. specialize (G3 Hne).
      rewrite Zle_Qle, <- H2P, inject_Z_mult.
      apply Qmult_le_compat_r; [|lra].
      unfold Z.sub. rewrite inject_Z_plus, inject_Z_mult.
      change (inject_Z 2) with 2%Q. change (inject_Z (- (1))) with (- (1))%Q.
      apply (Qmult_le_r _ _ T HTpos).
      assert (Hc : (2 * P * T == 2 * PT)%Q) by (subst PT; ring). rewrite Hc.
      assert (Hc2 : ((2 * inject_Z W + - (1)) * T == 2 * TW - T)%Q) by (subst TW; ring). rewrite Hc2.
      clearbody PT TW T. lra. }
    pose proof (round_quotient_bounds (Z.pos mp) K W HK (conj Z2 Z1)) as Hb.
    assert (HWle : W <= 100).
    { unfold W, roundedPercent.
      assert ((200 * s + t) / (2 * t) < 101); [|lia].
      apply Z.div_lt_upper_bound; lia. }
    exists ((2 * Z.pos mp + K) / (2 * K)).
    split.
    + apply to_int_of_int. split; [apply Z.div_pos; lia|lia].
    + split; [exact Hb|].
      intros Hne. apply round_quotient_exact; [exact HK|]. split; [apply Z3, Hne|exact Z1].
Qed.


(** Comparison of two exactly represented integers. *)
Lemma ge_of_int n c :
  - 2 ^ 53 < n < 2 ^ 53 -> 0 < c < 2 ^ 53 ->
  ge (of_int n) (of_int c) = (c <=? n).
Proof.
  intros Hn Hc.
  destruct (of_int_pos c Hc) as (mc & Ec & Hmc & Vc).
  destruct (Zdigits2_bounds c ltac:(lia)) as [Clo Chi].
  rewrite Ec. unfold ge.
  destruct (Z.compare_spec n 0) as [->|Hneg|Hpos].
  - simpl. symmetry. apply Z.leb_gt. lia.
  - destruct (of_int_neg n ltac:(lia)) as (m & e & ->). simpl.
    symmetry. apply Z.leb_gt. lia.
  - destruct (of_int_pos n ltac:(lia)) as (mn & En & Hmn & Vn).
    destruct (Zdigits2_bounds n ltac:(lia)) as [Nlo Nhi].
    assert (Dn : 0 < Zdigits2 n <= 53) by (apply (Zdigits2_range n 0 53); simpl (2 ^ 0); lia).
    assert (Dc : 0 < Zdigits2 c <= 53) by (apply (Zdigits2_range c 0 53); simpl (2 ^ 0); lia).
    rewrite En. cbn [SFcompare].
    destruct (Z.compare_spec (Zdigits2 n - 53) (Zdigits2 c - 53)) as [Heq|Hlt|Hgt].
    + assert (D : Zdigits2 n = Zdigits2 c) by lia.
      rewrite Pos.compare_cont_spec. cbn [Pos.switch_Eq].
      change (Pos.compare mn mc) with (Z.compare (Z.pos mn) (Z.pos mc)).
      rewrite Vn, Vc, D.
      assert (K0 : 0 < 2 ^ (53 - Zdigits2 c)) by (apply Z.pow_pos_nonneg; lia).
      destruct (Z.compare_spec (n * 2 ^ (53 - Zdigits2 c)) (c * 2 ^ (53 - Zdigits2 c)));
        symmetry; [apply Z.leb_le|apply Z.leb_gt|apply Z.leb_le]; nia.
    + assert (2 ^ Zdigits2 n <= 2 ^ (Zdigits2 c - 1)) by (apply Z.pow_le_mono_r; lia).
      symmetry. apply Z.leb_gt. lia.
    + assert (2 ^ Zdigits2 c <= 2 ^ (Zdigits2 n - 1)) by (apply Z.pow_le_mono_r; lia).
      symmetry. apply Z.leb_le. lia.
Qed.

Lemma score_countCorrect answers :
  Z.of_nat (length (filter (fun answer => isCorrect answer = true) answers))
  = countCorrect answers.
Proof.
  induction answers as [|a answers IH]; [reflexivity|].
  cbn [countCorrect]. rewrite <- IH.
  destruct (isCorrect a) eqn:E.
  - rewrite filter_cons_True by done. cbn [length]. lia.
  - rewrite filter_cons_False by (rewrite E; done). lia.
Qed.

Lemma countCorrect_range answers :
  0 <= countCorrect answers <= Z.of_nat (length answers).
Proof.
  induction answers as [|a answers IH]; cbn [countCorrect length]; [lia|].
  destruct (isCorrect a); lia.
Qed.


Lemma Q2_le_mono a b : a <= b -> (Q2 a <= Q2 b)%Q.
Proof.
  intros Hab. replace b with ((b - a) + a) by lia.
  rewrite Q2_add, (Q2_Z (b - a)) by lia.
  pose proof (Q2_pos a) as Ha.
  assert (H1 : (1 <= inject_Z (2 ^ (b - a)))%Q).
  { change 1%Q with (inject_Z 1). rewrite <- Zle_Qle.
    assert (0 < 2 ^ (b - a)) by (apply Z.pow_pos_nonneg; lia). lia. }
  assert (Hx : (Q2 a == 1 * Q2 a)%Q) by ring.
  rewrite Hx at 1. apply Qmult_le_compat_r; [exact H1|lra].
Qed.

Lemma Qle_bool_false x y : (y < x)%Q -> Qle_bool x y = false.
Proof.
  intros H. destruct (Qle_bool x y) eqn:E; [|reflexivity].
  apply Qle_bool_iff in E. lra.
Qed.

(** Comparison of a finite number with an exactly represented positive
    integer is the comparison of the values. *)
Lemma ge_value x c :
  valid_binary prec emax x = true -> is_finite x = true -> 0 < c < 2 ^ 53 ->
  ge x (of_int c) = Qle_bool (inject_Z c) (to_Q x).
Proof.
  intros Hv Hf Hc.
  destruct (of_int_pos_value c Hc) as (mc & Ec & Hmc & Vc).
  assert (Dc : 0 < Zdigits2 c <= 53) by (apply (Zdigits2_range c 0 53); simpl (2 ^ 0); lia).
  assert (HC : (0 < inject_Z c)%Q) by (rewrite <- (Zlt_Qlt 0); lia).
  rewrite Ec. unfold ge.
  destruct x as [sx|sx| |sx m e]; try discriminate Hf.
  - cbn. symmetry. apply Qle_bool_false. exact HC.
  - pose proof (Q2_pos e) as HE.
    change (to_Q (S754_finite sx m e))
      with (inject_Z (if sx then Z.neg m else Z.pos m) * Q2 e)%Q.
    destruct sx.
    + cbn [SFcompare]. symmetry. apply Qle_bool_false.
      assert (H1 : (inject_Z (Z.neg m) < 0)%Q) by (rewrite <- (Zlt_Qlt _ 0); lia).
      assert (H2 : (inject_Z (Z.neg m) * Q2 e < 0 * Q2 e)%Q)
        by (apply Qmult_lt_compat_r; [exact HE|exact H1]).
      lra.
    + cbn [valid_binary] in Hv. unfold bounded, canonical_mantissa in Hv.
      apply andb_true_iff in Hv. destruct Hv as [Hcan _].
      apply Z.eqb_eq in Hcan. unfold fexp, SpecFloat.emin, prec, emax in Hcan.
      destruct (digits2_pos_bounds m) as [Mlo Mhi].
      set (d := Z.pos (digits2_pos m)) in *.
      assert (Hd : d <= 53) by lia.
      assert (Mhi' : Z.pos m < 2 ^ 53).
      { assert (2 ^ d <= 2 ^ 53) by (apply Z.pow_le_mono_r; lia). lia. }
      set (ec := Zdigits2 c - 53) in *.
      rewrite <- Vc.
      cbn [SFcompare].
      destruct (Z.compare_spec e ec) as [Heq|Hlt|Hgt].
      * subst e. rewrite Pos.compare_cont_spec. cbn [Pos.switch_Eq].
        change (Pos.compare m mc) with (Z.compare (Z.pos m) (Z.pos mc)).
        destruct (Z.compare_spec (Z.pos m) (Z.pos mc)) as [H|H|H].
        -- rewrite H. symmetry. apply Qle_bool_iff. lra.
        -- symmetry. apply Qle_bool_false.
           apply Qmult_lt_compat_r; [exact HE|]. rewrite <- Zlt_Qlt. exact H.
        -- symmetry. apply Qle_bool_iff. apply Qmult_le_compat_r; [|lra].
           rewrite <- Zle_Qle. lia.
      * symmetry. apply Qle_bool_false.
        pose proof (Q2_le_mono (53 + e) (52 + ec) ltac:(lia)) as Hm.
        rewrite !Q2_add, (Q2_Z 53), (Q2_Z 52) in Hm by lia.
        assert (H1 : (inject_Z (Z.pos m) * Q2 e < inject_Z (2 ^ 53) * Q2 e)%Q)
          by (apply Qmult_lt_compat_r; [exact HE|rewrite <- Zlt_Qlt; exact Mhi']).
        assert (H2 : (inject_Z (2 ^ 52) * Q2 ec <= inject_Z (Z.pos mc) * Q2 ec)%Q)
          by (apply Qmult_le_compat_r; [rewrite <- Zle_Qle; lia|apply Qlt_le_weak, Q2_pos]).
        lra.
      * symmetry. apply Qle_bool_iff.
        assert (D : d = 53) by lia.
        assert (Mlo' : 2 ^ 52 <= Z.pos m) by (rewrite D in Mlo; exact Mlo).
        pose proof (Q2_le_mono (53 + ec) (52 + e) ltac:(lia)) as Hm.
        rewrite !Q2_add, (Q2_Z 53), (Q2_Z 52) in Hm by lia.
        assert (H1 : (inject_Z (2 ^ 52) * Q2 e <= inject_Z (Z.pos m) * Q2 e)%Q)
          by (apply Qmult_le_compat_r; [rewrite <- Zle_Qle; exact Mlo'|lra]).
        assert (H2 : (inject_Z (Z.pos mc) * Q2 ec <= inject_Z (2 ^ 53) * Q2 ec)%Q)
          by (apply Qmult_le_compat_r; [rewrite <- Zle_Qle; lia|apply Qlt_le_weak, Q2_pos]).
        lra.
Qed.

End Scoring.

(** * The session status store and the result recorder *)

Section Store.

Implicit Types (w : World) (id : string).

Lemma roundTrip_ok w :
  failure (respond w (calls w)) = None ->
  roundTrip w = (Return (respond w (calls w)), answered w).
Proof. intros H. unfold roundTrip. now rewrite H. Qed.

Lemma roundTrip_fail w error :
  failure (respond w (calls w)) = Some error ->
  roundTrip w = (Throw error, answered w).
Proof. intros H. unfold roundTrip. now rewrite H. Qed.

Lemma getDoc_ok id w :
  failure (respond w (calls w)) = None ->
  getDoc id w = (Return (statusDocs w !! id), answered w).
Proof.
  intros H. unfold getDoc, mbind, async_bind. now rewrite (roundTrip_ok w H).
Qed.

Lemma getDoc_fail id w error :
  failure (respond w (calls w)) = Some error ->
  getDoc id w = (Throw error, answered w).
Proof.
  intros H. unfold getDoc, mbind, async_bind. now rewrite (roundTrip_fail w error H).
Qed.

Lemma setDoc_ok id data w :
  failure (respond w (calls w)) = None ->
  setDoc id data w = (Return (), withStatusDocs (<[id := data]> (statusDocs w)) (answered w)).
Proof.
  intros H. unfold setDoc, mbind, async_bind. now rewrite (roundTrip_ok w H).
Qed.

Lemma setDoc_fail id data w error :
  failure (respond w (calls w)) = Some error ->
  setDoc id data w = (Throw error, answered w).
Proof.
  intros H. unfold setDoc, mbind, async_bind. now rewrite (roundTrip_fail w error H).
Qed.

Lemma updateDoc_ok id patch data w :
  failure (respond w (calls w)) = None ->
  statusDocs w !! id = Some data ->
  updateDoc id patch w
  = (Return (), withStatusDocs (<[id := merge patch data]> (statusDocs w)) (answered w)).
Proof.
  intros H Hd. unfold updateDoc, mbind, async_bind. rewrite (roundTrip_ok w H).
  unfold getStatusDocs. cbn. now rewrite Hd.
Qed.

Lemma addDoc_ok data w :
  failure (respond w (calls w)) = None ->
  exists w',
    addDoc data w = (Return (assignedId (respond w (calls w))), w')
    /\ testResults w' = testResults w ++ [(assignedId (respond w (calls w)), data)]
    /\ statusDocs w' = statusDocs w.
Proof.
  intros H. unfold addDoc, mbind, async_bind. rewrite (roundTrip_ok w H).
  eexists. split; [reflexivity|]. split; reflexivity.
Qed.

Lemma markTestAsSubmitted_ok id w :
  failure (respond w (calls w)) = None ->
  failure (respond w (S (calls w))) = None ->
  exists w',
    markTestAsSubmitted id w = (Return (), w')
    /\ testResults w' = testResults w
    /\ clock w' = clock w + latency (respond w (calls w)) + latency (respond w (S (calls w)))
    /\ calls w' = S (S (calls w))
    /\ respond w' = respond w
    /\ (exists doc, statusDocs w' !! id = Some doc
                    /\ doc_hasSubmitted doc = Some true
                    /\ doc_submissionDate doc = Some (clock w + latency (respond w (calls w)))).
Proof.
  intros H0 H1.
  unfold markTestAsSubmitted, try_catch, mbind, async_bind at 1.
  rewrite (getDoc_ok id w H0). unfold mbind, async_bind, newDate.
  destruct (statusDocs w !! id) as [data|] eqn:Hd.
  - erewrite updateDoc_ok; [|exact H1|exact Hd].
    eexists. split; [reflexivity|]. cbn. repeat (split; [reflexivity|]).
    eexists. rewrite lookup_insert_eq. split; [reflexivity|]. split; reflexivity.
  - rewrite setDoc_ok by exact H1.
    eexists. split; [reflexivity|]. cbn. repeat (split; [reflexivity|]).
    eexists. rewrite lookup_insert_eq. split; [reflexivity|]. split; reflexivity.
Qed.

(** A failure while marking leaves the results collection as it was. *)
Lemma markTestAsSubmitted_results id w :
  testResults (snd (markTestAsSubmitted id w)) = testResults w.
Proof.
  unfold markTestAsSubmitted, try_catch, mbind, async_bind, getDoc, updateDoc, setDoc,
    roundTrip, newDate, getStatusDocs, setStatusDocs, mbind, async_bind, mret, async_ret, throw.
  cbn.
  destruct (failure (respond w (calls w))); cbn; [reflexivity|].
  destruct (statusDocs w !! id); cbn;
    destruct (failure (respond w (S (calls w)))); cbn; try reflexivity.
  destruct (statusDocs w !! id); reflexivity.
Qed.


Lemma markTestAsSubmitted_read_failure id w error :
  failure (respond w (calls w)) = Some error ->
  markTestAsSubmitted id w
  = (Throw (Error (messageOr error "Failed to mark test as submitted")), answered w).
Proof.
  intros H0. unfold markTestAsSubmitted, try_catch, mbind, async_bind at 1.
  now rewrite (getDoc_fail id w error H0).
Qed.

(** When the first store call fails nothing is written: the marking comes
    before the result. *)
Lemma submitTestResult_read_failure testResult w error :
  failure (respond w (calls w)) = Some error ->
  exists message w',
    submitTestResult testResult w = (Throw (Error message), w')
    /\ testResults w' = testResults w
    /\ statusDocs w' = statusDocs w.
Proof.
  intros H0.
  unfold submitTestResult, try_catch, mbind, async_bind at 1.
  rewrite (markTestAsSubmitted_read_failure _ w error H0). unfold throw.
  eexists _, _. split; [reflexivity|]. split; reflexivity.
Qed.

(** When only the third store call fails the status is marked and no
    result is stored. *)
Lemma submitTestResult_write_failure testResult w error :
  failure (respond w (calls w)) = None ->
  failure (respond w (S (calls w))) = None ->
  failure (respond w (S (S (calls w)))) = Some error ->
  exists message w',
    submitTestResult testResult w = (Throw (Error message), w')
    /\ testResults w' = testResults w
    /\ (exists doc, statusDocs w' !! r_userId testResult = Some doc
                    /\ doc_hasSubmitted doc = Some true).
Proof.
  intros H0 H1 H2.
  destruct (markTestAsSubmitted_ok (r_userId testResult) w H0 H1)
    as (w1 & E1 & R1 & C1 & N1 & P1 & doc & D1 & D2 & _).
  unfold submitTestResult, try_catch, mbind, async_bind at 1.
  rewrite E1. unfold mbind, async_bind, newDate, addDoc, mbind, async_bind.
  rewrite (roundTrip_fail w1 error) by (now rewrite P1, N1).
  unfold throw. eexists _, _. split; [reflexivity|]. cbn.
  split; [exact R1|]. exists doc. split; [exact D1|exact D2].
Qed.

End Store.

(** * The properties of the design document *)

(** ** The entry window *)

(** C1, as the source has it: for a start instant [T] the test is available
    exactly at the instants of the closed interval from [T] to [T] plus 30
    minutes: at every such instant, at no instant before [T] and at no
    instant after [T] plus 30 minutes. *)
Theorem C1_window_is_closed_interval settings now :
  isTestAvailable settings now = true
  <-> testStartTime settings <= now <= testStartTime settings + 30 * 60 * 1000.
Proof.
  unfold isTestAvailable. rewrite andb_true_iff, !Z.leb_le. reflexivity.
Qed.

(** C1 fails at the end of the window: 30 minutes after the start, to the
    millisecond, the test is still available. *)
Lemma C1_counterexample :
  isTestAvailable (getTestSettings 0)
                  (testStartTime (getTestSettings 0) + 30 * 60 * 1000) = true.
Proof. reflexivity. Qed.

(** ** The shuffle *)



(** With 45 questions and an id of code sum 79667 the first state of the
    generator is 134784 = 26 * 233280 / 45: the exact product with 45 is
    26, the binary64 product is just below it. *)
Lemma first_draw_79667 :
  Reference.seed id79667 = 79667
  /\ Reference.state 79667 1 = 134784
  /\ Reference.draw 79667 1 44 = 26%nat
  /\ Reference.draw64 79667 1 44 = 25%nat.
Proof. vm_compute. repeat split. Qed.


(** C4: the output of the shuffle is a permutation of its input, of the
    same length, for every array and every id; the empty array gives the
    empty array. *)
Theorem C4_shuffle_is_permutation questions userId :
  Z.of_nat (length questions) < 2 ^ 32 ->
  exists shuffled,
    shuffleQuestions questions userId = Some shuffled
    /\ shuffled ≡ₚ questions
    /\ length shuffled = length questions
    /\ (questions = [] -> shuffled = []).
Proof.
  intros Hlen. exists (Reference.shuffle64 questions userId).
  split; [now apply shuffleQuestions_reference64|].
  pose proof (fisherYates_perm (Reference.draw64 (Reference.seed userId)) questions) as Hp.
  split; [exact Hp|]. split; [now rewrite Hp|].
  intros ->. reflexivity.
Qed.

(** C4 at three questions and the id p1. *)
Lemma C4_witness :
  exists shuffled,
    shuffleQuestions (sampleQuestions 3) "p1" = Some shuffled
    /\ shuffled ≡ₚ sampleQuestions 3
    /\ length shuffled = length (sampleQuestions 3)
    /\ (sampleQuestions 3 = [] -> shuffled = []).
Proof. apply (C4_shuffle_is_permutation (sampleQuestions 3) "p1"). reflexivity. Defined.

(** Anagrams have the same sum of character codes. *)
Lemma anagram_same_seed id1 id2 :
  list_ascii_of_string id1 ≡ₚ list_ascii_of_string id2 ->
  Reference.seed id1 = Reference.seed id2.
Proof.
  unfold Reference.seed. intros Hp.
  induction Hp as [|c l l' _ IH|c c' l|l l' l'' _ IH1 _ IH2];
    rewrite ?fmap_cons; cbn [foldr]; lia.
Qed.

(** C10: the shuffle depends on the id only through the sum of its
    character codes: two ids of equal sum give the same order. *)
Theorem C10_equal_code_sums_equal_orders questions id1 id2 :
  Reference.seed id1 = Reference.seed id2 ->
  shuffleQuestions questions id1 = shuffleQuestions questions id2.
Proof.
  intros H. unfold shuffleQuestions. now rewrite !seedOf_sum, H.
Qed.

(** C10 at the anagrams ab and ba. *)
Lemma C10_witness :
  shuffleQuestions (sampleQuestions 20) "ab" = shuffleQuestions (sampleQuestions 20) "ba".
Proof.
  apply (C10_equal_code_sums_equal_orders (sampleQuestions 20) "ab" "ba"). reflexivity.
Defined.

(** ** Scoring *)

(** C2 does not hold of the source: on the empty list the quotient is 0/0
    and the percentage is NaN. *)
Theorem C2_empty_list_percentage_is_NaN :
  percentage (calculateScore []) = NaN
  /\ to_int (percentage (calculateScore [])) = None
  /\ score (calculateScore []) = 0.
Proof. repeat split. Qed.

(** C5, amended: on a non-empty list the score is the number of answers
    marked correct, and the percentage is [Math.round] of the binary64
    product of the binary64 quotient [score / total] with 100.  That is
    the integer nearest to [100 * score / total] whenever this value is
    not halfway between two integers, and one of the two neighbours when
    it is; [true, false, true] gives 2 and 67. *)
Theorem C5_score_and_percentage answers :
  answers <> [] -> Z.of_nat (length answers) < 2 ^ 32 ->
  let result := calculateScore answers in
  let total := Z.of_nat (length answers) in
  score result = countCorrect answers
  /\ percentage result
     = Math_round (mul (div (of_int (countCorrect answers)) (of_int total)) (of_int 100))
  /\ (exists p,
        to_int (percentage result) = Some p
        /\ roundedPercent (score result) total - 1 <= p <= roundedPercent (score result) total
        /\ ((200 * score result + total) mod (2 * total) <> 0 ->
            p = roundedPercent (score result) total))
  /\ score (calculateScore [answer true; answer false; answer true]) = 2
  /\ to_int (percentage (calculateScore [answer true; answer false; answer true])) = Some 67.
Proof.
  intros Hne Hlen result total.
  assert (Ht : 1 <= total) by (subst total; destruct answers; [done|cbn [length]; lia]).
  pose proof (countCorrect_range answers) as Hc.
  subst result. unfold calculateScore. cbn [score percentage].
  rewrite score_countCorrect.
  split; [reflexivity|]. split; [reflexivity|].
  split; [apply percent_rounding; subst total; lia|].
  split; reflexivity.
Qed.

(** C5 at the list [true, false, true]. *)
Lemma C5_witness :
  let answers := [answer true; answer false; answer true] in
  score (calculateScore answers) = countCorrect answers
  /\ to_int (percentage (calculateScore answers)) = Some (roundedPercent 2 3).
Proof.
  intros answers.
  destruct (C5_score_and_percentage answers) as (Hs & _ & _ & _ & Hp); [discriminate|reflexivity|].
  split; [exact Hs|exact Hp].
Defined.

(** C5 fails when [round] is read over the exact quotient: 23 correct
    answers out of 40 are 57.5 percent and the source returns 57, while 1
    out of 8 is 12.5 percent and the source returns 13. *)
Lemma C5_counterexample :
  let answers := replicate 23 (answer true) ++ replicate 17 (answer false) in
  score (calculateScore answers) = 23
  /\ Z.of_nat (length answers) = 40
  /\ to_int (percentage (calculateScore answers)) = Some 57
  /\ roundedPercent 23 40 = 58
  /\ to_int (percentage (calculateScore (answer true :: replicate 7 (answer false)))) = Some 13.
Proof. vm_compute. repeat split. Qed.

(** C6: a percentage is graded by the inclusive lower bounds 90, 80, 70,
    60 and 50, tried from the highest down, and anything lower is an F:
    for every finite number, by its value, and in particular for every
    integer; 90 is an A+, 89 an A, 50 a C and 49 an F. *)
Theorem C6_grade_thresholds x :
  valid_binary prec emax x = true -> is_finite x = true ->
  grade (getGradeFromPercentage x) = gradeOfValue (to_Q x)
  /\ (forall n, - 2 ^ 53 < n < 2 ^ 53 ->
      grade (getGradeFromPercentage (of_int n)) = gradeTable n)
  /\ grade (getGradeFromPercentage (of_int 90)) = "A+"
  /\ grade (getGradeFromPercentage (of_int 89)) = "A"
  /\ grade (getGradeFromPercentage (of_int 50)) = "C"
  /\ grade (getGradeFromPercentage (of_int 49)) = "F".
Proof.
  intros Hv Hf. split; [|split; [|repeat split]].
  - unfold getGradeFromPercentage, gradeOfValue.
    rewrite !ge_value by (done || lia).
    change (inject_Z 90) with 90%Q. change (inject_Z 80) with 80%Q.
    change (inject_Z 70) with 70%Q. change (inject_Z 60) with 60%Q.
    change (inject_Z 50) with 50%Q.
    repeat (destruct (Qle_bool _ (to_Q x)); [reflexivity|]). reflexivity.
  - intros n Hn. unfold getGradeFromPercentage, gradeTable.
    rewrite !ge_of_int by lia.
    repeat (destruct (_ <=? n); [reflexivity|]). reflexivity.
Qed.

(** C6 at 89.5 percent, the number 179 * 2^45 * 2^-46. *)
Lemma C6_witness :
  grade (getGradeFromPercentage (S754_finite false 6298002603900928 (-46))) = "A".
Proof.
  destruct (C6_grade_thresholds (S754_finite false 6298002603900928 (-46))) as [H _];
    [reflexivity|reflexivity|].
  exact H.
Defined.

(** ** The session status store *)

(** C7: [getUserTestStatus] swallows a failure that is not a failure of
    the read.  The write of the default record for an absent record sits
    inside the block whose handler is meant for a read that failed: when
    the read is answered, the record is absent and that write fails with
    [permission-denied] or [not-found], the handler writes the default
    record a second time and, if that write is answered, the caller gets
    the default record and no error.  The same failure of the write that
    follows a failed read is thrown to the caller, wrapped. *)
Theorem C7_write_failure_is_swallowed id w e :
  failure (respond w (S (calls w))) = Some e ->
  err_code e = Some "permission-denied" \/ err_code e = Some "not-found" ->
  let t1 := clock w + latency (respond w (calls w)) in
  let t2 := t1 + latency (respond w (S (calls w))) in
  let out := fst (getUserTestStatus id w) in
  let after := snd (getUserTestStatus id w) in
  (failure (respond w (calls w)) = None ->
   statusDocs w !! id = None ->
   failure (respond w (S (S (calls w)))) = None ->
   out = Return {| userId := id; hasSubmitted := false; submissionDate := None;
                   tabSwitchCount := 0; isTestCancelled := false; lastActivity := t2 |}
   /\ statusDocs after
      = <[id := {| doc_userId := Some id; doc_hasSubmitted := Some false;
                   doc_submissionDate := None; doc_tabSwitchCount := Some 0;
                   doc_isTestCancelled := Some false; doc_lastActivity := Some t2 |}]>
          (statusDocs w)
   /\ calls after = S (S (S (calls w))))
  /\ (forall e0,
        failure (respond w (calls w)) = Some e0 ->
        err_code e0 = Some "permission-denied" \/ err_code e0 = Some "not-found" ->
        out = Throw {| err_code := None;
                       err_message := "Failed to get user test status: " +:+ err_message e |}
        /\ statusDocs after = statusDocs w
        /\ calls after = S (S (calls w))).
Proof.
  intros H1 He t1 t2 out after. subst t1 t2 out after.
  assert (R : forall x, err_code x = Some "permission-denied" \/ err_code x = Some "not-found" ->
                        isRecoverable x = true).
  { intros x [Hx|Hx]; unfold isRecoverable; rewrite Hx; reflexivity. }
  split.
  - intros H0 Hd H2. unfold_store; cbn. rewrite H0; cbn. rewrite Hd; cbn.
    rewrite H1; cbn. rewrite (R e He); cbn. rewrite H2; cbn. repeat split.
  - intros e0 H0 He0. unfold_store; cbn. rewrite H0; cbn. rewrite (R e0 He0); cbn.
    rewrite H1; cbn. repeat split.
Qed.

(** C7 for a participant without record, in the store whose second answer
    is a permission error: three calls, and the default record comes
    back. *)
Lemma C7_witness :
  fst (getUserTestStatus "p1" deniedOnceWorld)
  = Return {| userId := "p1"; hasSubmitted := false; submissionDate := None;
              tabSwitchCount := 0; isTestCancelled := false; lastActivity := 1020 |}
  /\ calls (snd (getUserTestStatus "p1" deniedOnceWorld)) = 3%nat.
Proof.
  destruct (C7_write_failure_is_swallowed "p1" deniedOnceWorld permissionDenied) as [H _];
    [reflexivity|left; reflexivity|].
  destruct H as (Ho & _ & Hc); [reflexivity|reflexivity|reflexivity|].
  split; [exact Ho|exact Hc].
Defined.

(** C8: when the store answers its two calls and the stored count is
    below 2^53 in magnitude, [incrementTabSwitchCount] returns the stored
    count plus one, an absent record or field counting as 0, and that is
    the count stored afterwards: an absent record is created with the
    default fields and count 1, an existing one keeps its other fields. *)
Theorem C8_increment_stores_and_returns_next_count id w :
  failure (respond w (calls w)) = None ->
  failure (respond w (S (calls w))) = None ->
  - 2 ^ 53 < storedCount id w < 2 ^ 53 - 1 ->
  exists w',
    incrementTabSwitchCount id w = (Return (storedCount id w + 1), w')
    /\ storedCount id w' = storedCount id w + 1
    /\ (statusDocs w !! id = None ->
        statusDocs w' !! id
        = Some {| doc_userId := Some id; doc_hasSubmitted := Some false;
                  doc_submissionDate := None; doc_tabSwitchCount := Some 1;
                  doc_isTestCancelled := Some false;
                  doc_lastActivity := Some (clock w + latency (respond w (calls w))) |})
    /\ (forall data, statusDocs w !! id = Some data ->
        statusDocs w' !! id
        = Some {| doc_userId := doc_userId data; doc_hasSubmitted := doc_hasSubmitted data;
                  doc_submissionDate := doc_submissionDate data;
                  doc_tabSwitchCount := Some (storedCount id w + 1);
                  doc_isTestCancelled := doc_isTestCancelled data;
                  doc_lastActivity := Some (clock w + latency (respond w (calls w))) |}).
Proof.
  intros H0 H1 Hb.
  unfold incrementTabSwitchCount, try_catch, mbind, async_bind at 1.
  rewrite (getDoc_ok id w H0). unfold storedCount in Hb. unfold storedCount at 1 3 4.
  destruct (statusDocs w !! id) as [data|] eqn:Hd.
  - rewrite plusOne_exact by exact Hb.
    unfold mbind, async_bind, newDate.
    erewrite updateDoc_ok; [|exact H1|exact Hd].
    eexists. split; [reflexivity|].
    unfold storedCount. cbn. rewrite lookup_insert_eq. cbn.
    split; [reflexivity|]. split; [done|].
    intros data' [= <-]. reflexivity.
  - unfold mbind, async_bind, newDate.
    rewrite setDoc_ok by exact H1.
    eexists. split; [reflexivity|].
    unfold storedCount. cbn. rewrite lookup_insert_eq. cbn.
    split; [reflexivity|]. split; [reflexivity|]. intros data' [=].
Qed.

(** C8 for a participant with three violations on record, and for a
    fresh participant. *)
Lemma C8_witness :
  (exists w',
      incrementTabSwitchCount "p1" busyWorld = (Return 4, w')
      /\ storedCount "p1" w' = 4)
  /\ (exists w',
         incrementTabSwitchCount "p1" quietWorld = (Return 1, w')
         /\ storedCount "p1" w' = 1).
Proof.
  split.
  - destruct (C8_increment_stores_and_returns_next_count "p1" busyWorld)
      as (w' & E & Hc & _); [reflexivity|reflexivity|vm_compute; split; reflexivity|].
    exists w'. split; [exact E|exact Hc].
  - destruct (C8_increment_stores_and_returns_next_count "p1" quietWorld)
      as (w' & E & Hc & _); [reflexivity|reflexivity|vm_compute; split; reflexivity|].
    exists w'. split; [exact E|exact Hc].
Defined.

(** ** The result recorder *)

(** C9: when the store answers its three calls, [submitTestResult] first
    marks the status of the participant submitted, with the submission
    instant, then adds the result to the collection with the instant of
    that call as completion instant, whatever completion instant the
    caller supplied, every other field being the caller's, and returns
    the identity the store assigned. *)
Theorem C9_submit_marks_then_persists testResult w :
  failure (respond w (calls w)) = None ->
  failure (respond w (S (calls w))) = None ->
  failure (respond w (S (S (calls w)))) = None ->
  let marked := clock w + latency (respond w (calls w)) in
  let persisted := marked + latency (respond w (S (calls w))) in
  let identity := assignedId (respond w (S (S (calls w)))) in
  exists w',
    submitTestResult testResult w = (Return identity, w')
    /\ testResults w'
       = testResults w
         ++ [(identity,
              {| r_userId := r_userId testResult; r_userName := r_userName testResult;
                 r_userEmail := r_userEmail testResult;
                 r_admissionNumber := r_admissionNumber testResult;
                 r_branch := r_branch testResult; r_score := r_score testResult;
                 r_totalQuestions := r_totalQuestions testResult;
                 r_percentage := r_percentage testResult;
                 r_timeSpent := r_timeSpent testResult;
                 r_answers := r_answers testResult;
                 r_completedAt := persisted; r_status := r_status testResult |})]
    /\ (exists doc, statusDocs w' !! r_userId testResult = Some doc
                    /\ doc_hasSubmitted doc = Some true
                    /\ doc_submissionDate doc = Some marked).
Proof.
  intros H0 H1 H2 marked persisted identity.
  destruct (markTestAsSubmitted_ok (r_userId testResult) w H0 H1)
    as (w1 & E1 & R1 & C1 & N1 & P1 & D1).
  unfold submitTestResult, try_catch, mbind, async_bind at 1.
  rewrite E1. unfold mbind, async_bind, newDate.
  destruct (addDoc_ok (withCompletedAt testResult (clock w1)) w1) as (w2 & E2 & R2 & S2).
  { now rewrite P1, N1. }
  rewrite E2, P1, N1. exists w2.
  split; [reflexivity|].
  split; [rewrite R2, R1, P1, N1, C1; reflexivity|].
  now rewrite S2.
Qed.

(** C9 for a result whose caller supplied the completion instant 5: the
    record is stored with the completion instant 1020. *)
Lemma C9_witness :
  r_completedAt sampleResult = 5
  /\ exists w' stored,
      submitTestResult sampleResult quietWorld = (Return "r1", w')
      /\ testResults w' = [("r1", stored)]
      /\ r_completedAt stored = 1020
      /\ r_userId stored = "p1"
      /\ r_score stored = 2.
Proof.
  split; [reflexivity|].
  destruct (C9_submit_marks_then_persists sampleResult quietWorld)
    as (w' & E & R & _); [reflexivity|reflexivity|reflexivity|].
  exists w'. eexists. split; [exact E|]. split; [exact R|]. repeat split.
Defined.

(** * Further properties of the source *)

(** ** The shuffle and the catalogue *)

(** X1: an array of at most one question is returned as it is, whatever
    the id. *)
Theorem X1_short_array_unchanged (questions : list TestQuestion) userId :
  (length questions <= 1)%nat ->
  shuffleQuestions questions userId = Some questions.
Proof.
  intros Hlen. unfold shuffleQuestions.
  destruct questions as [|q [|q' rest]]; cbn in *; [reflexivity|reflexivity|lia].
Qed.

(** X1 at one question. *)
Lemma X1_witness :
  shuffleQuestions (sampleQuestions 1) "p1" = Some (sampleQuestions 1).
Proof.
  apply (X1_short_array_unchanged (sampleQuestions 1) "p1"). cbn. lia.
Defined.

Lemma next_state_mod s1 s2 :
  s1 mod 233280 = s2 mod 233280 ->
  (s1 * 9301 + 49297) mod 233280 = (s2 * 9301 + 49297) mod 233280.
Proof.
  intros H.
  rewrite <- (Zplus_mod_idemp_l (s1 * 9301)), <- (Zmult_mod_idemp_l s1), H.
  rewrite Zmult_mod_idemp_l, Zplus_mod_idemp_l. reflexivity.
Qed.



Lemma shuffle64_perm questions participantId :
  Reference.shuffle64 questions participantId ≡ₚ questions.
Proof. apply fisherYates_perm. Qed.

Lemma catalogue_ids_distinct : NoDup (q_id <$> getTestQuestions).
Proof. apply (bool_decide_unpack _). vm_compute. exact I. Qed.

Lemma catalogue_answers_in_range :
  Forall (fun q => 0 <= q_correctAnswer q < Z.of_nat (length (q_options q))) getTestQuestions.
Proof. repeat constructor; cbn; lia. Qed.


(** ** The entry window *)

(** X4: the test is available exactly from the start instant to the
    instant [getTestEndTime] returns, both included, and no longer one
    millisecond later; no other field of the settings is consulted. *)
Theorem X4_window_ends_at_getTestEndTime settings now :
  (isTestAvailable settings now = true
   <-> testStartTime settings <= now <= getTestEndTime settings)
  /\ isTestAvailable settings (getTestEndTime settings) = true
  /\ isTestAvailable settings (getTestEndTime settings + 1) = false
  /\ (forall settings',
        testStartTime settings' = testStartTime settings ->
        isTestAvailable settings' now = isTestAvailable settings now).
Proof.
  unfold isTestAvailable, getTestEndTime. split; [|split; [|split]].
  - rewrite andb_true_iff, !Z.leb_le. reflexivity.
  - apply andb_true_iff. rewrite !Z.leb_le. lia.
  - apply andb_false_iff. right. apply Z.leb_gt. lia.
  - intros settings' ->. reflexivity.
Qed.

(** ** Scoring *)

Lemma percent_number s t :
  0 <= s <= t -> 1 <= t < 2 ^ 32 ->
  exists p,
    Math_round (mul (div (of_int s) (of_int t)) (of_int 100)) = of_int p
    /\ 0 <= p < 2 ^ 53.
Proof.
  intros Hs Ht.
  destruct (of_int_pos_value t ltac:(lia)) as (mt & Et & Hmt & Vt).
  assert (Dt : 0 < Zdigits2 t <= 32) by (apply (Zdigits2_range t 0 32); simpl (2 ^ 0); lia).
  assert (E100 : of_int 100 = S754_finite false 7036874417766400 (-46)) by reflexivity.
  destruct (Z.eq_dec s 0) as [->|Hs0].
  - exists 0. rewrite Et, E100. split; [reflexivity|lia].
  - destruct (of_int_pos_value s ltac:(lia)) as (ms & Es & Hms & Vs).
    assert (Ds : 0 < Zdigits2 s <= 32) by (apply (Zdigits2_range s 0 32); simpl (2 ^ 0); lia).
    rewrite Es, Et, E100.
    destruct (div_normal ms (Zdigits2 s - 53) mt (Zdigits2 t - 53))
      as (mr & er & Er & Hmr & Her & _); try lia.
    rewrite Er.
    destruct (mul_normal mr er 7036874417766400 (-46))
      as (mp & ep & Ep & Hmp & Hep & _); try lia.
    rewrite Ep. unfold Math_round.
    replace (0 <=? ep) with false by (symmetry; apply Z.leb_gt; lia).
    replace (- ep + 1) with (Z.succ (- ep)) by lia.
    rewrite Z.pow_succ_r by lia.
    set (K := 2 ^ (- ep)).
    assert (HK : 2 <= K).
    { subst K. change 2 with (2 ^ 1) at 1. apply Z.pow_le_mono_r; lia. }
    exists ((2 * Z.pos mp + K) / (2 * K)). split; [reflexivity|].
    split; [apply Z.div_pos; lia|].
    assert ((2 * Z.pos mp + K) / (2 * K) < Z.pos mp + 1); [|lia].
    apply Z.div_lt_upper_bound; nia.
Qed.

Lemma percent_integer s t :
  0 <= s <= t -> 1 <= t < 2 ^ 32 ->
  exists p,
    Math_round (mul (div (of_int s) (of_int t)) (of_int 100)) = of_int p
    /\ 0 <= p <= 100
    /\ ((200 * s + t) mod (2 * t) <> 0 -> p = roundedPercent s t).
Proof.
  intros Hs Ht.
  destruct (percent_number s t Hs Ht) as (p & Ep & Hp).
  destruct (percent_rounding s t Hs Ht) as (p' & Ep' & Hp' & Hexact).
  rewrite Ep, to_int_of_int in Ep' by exact Hp.
  injection Ep' as <-.
  exists p. split; [exact Ep|]. split; [|exact Hexact].
  assert (roundedPercent s t <= 100).
  { unfold roundedPercent.
    assert ((200 * s + t) / (2 * t) < 101); [|lia].
    apply Z.div_lt_upper_bound; lia. }
  lia.
Qed.

Lemma percentage_calculateScore answers :
  percentage (calculateScore answers)
  = Math_round (mul (div (of_int (countCorrect answers))
                         (of_int (Z.of_nat (length answers)))) (of_int 100)).
Proof. unfold calculateScore. cbn [percentage]. now rewrite score_countCorrect. Qed.

(** X5: on a non-empty list the percentage is an integer between 0 and
    100, and the score is between 0 and the number of answers. *)
Theorem X5_percentage_in_range answers :
  answers <> [] -> Z.of_nat (length answers) < 2 ^ 32 ->
  exists p,
    percentage (calculateScore answers) = of_int p
    /\ to_int (percentage (calculateScore answers)) = Some p
    /\ 0 <= p <= 100
    /\ 0 <= score (calculateScore answers) <= Z.of_nat (length answers).
Proof.
  intros Hne Hlen.
  assert (Ht : 1 <= Z.of_nat (length answers)) by (destruct answers; [done|cbn [length]; lia]).
  pose proof (countCorrect_range answers) as Hc.
  destruct (percent_integer (countCorrect answers) (Z.of_nat (length answers)))
    as (p & Ep & Hp & _); [lia|lia|].
  exists p. rewrite percentage_calculateScore, Ep.
  split; [reflexivity|]. split; [apply to_int_of_int; lia|]. split; [exact Hp|].
  unfold calculateScore. cbn [score]. rewrite score_countCorrect. exact Hc.
Qed.

(** X5 at the list [true, false, true]. *)
Lemma X5_witness :
  exists p,
    to_int (percentage (calculateScore [answer true; answer false; answer true])) = Some p
    /\ 0 <= p <= 100.
Proof.
  destruct (X5_percentage_in_range [answer true; answer false; answer true])
    as (p & _ & E & Hp & _); [discriminate|reflexivity|].
  exists p. split; [exact E|exact Hp].
Defined.

Lemma countCorrect_all answers :
  Forall (fun a => isCorrect a = true) answers ->
  countCorrect answers = Z.of_nat (length answers).
Proof.
  induction 1 as [|a answers Ha _ IH]; [reflexivity|].
  cbn [countCorrect length]. rewrite Ha, IH. lia.
Qed.

Lemma countCorrect_none answers :
  Forall (fun a => isCorrect a = false) answers -> countCorrect answers = 0.
Proof.
  induction 1 as [|a answers Ha _ IH]; [reflexivity|].
  cbn [countCorrect]. rewrite Ha, IH. lia.
Qed.

(** X6: a non-empty list in which every answer is correct scores 100
    percent, and one in which no answer is correct scores 0 percent. *)
Theorem X6_all_or_nothing answers :
  answers <> [] -> Z.of_nat (length answers) < 2 ^ 32 ->
  (Forall (fun a => isCorrect a = true) answers ->
   score (calculateScore answers) = Z.of_nat (length answers)
   /\ percentage (calculateScore answers) = of_int 100)
  /\ (Forall (fun a => isCorrect a = false) answers ->
      score (calculateScore answers) = 0
      /\ percentage (calculateScore answers) = of_int 0).
Proof.
  intros Hne Hlen.
  assert (Ht : 1 <= Z.of_nat (length answers)) by (destruct answers; [done|cbn [length]; lia]).
  set (t := Z.of_nat (length answers)) in *.
  split; intros Hall.
  - pose proof (countCorrect_all answers Hall) as Hc. fold t in Hc.
    split; [unfold calculateScore; cbn [score]; now rewrite score_countCorrect|].
    rewrite percentage_calculateScore, Hc. fold t.
    destruct (percent_integer t t) as (p & Ep & _ & Hexact); [lia|lia|].
    rewrite Ep. f_equal. rewrite Hexact.
    + unfold roundedPercent. replace (200 * t + t) with (t + 100 * (2 * t)) by lia.
      rewrite Z.div_add by lia. rewrite Z.div_small by lia. reflexivity.
    + replace (200 * t + t) with (t + 100 * (2 * t)) by lia.
      rewrite Z.mod_add by lia. rewrite Z.mod_small by lia. lia.
  - pose proof (countCorrect_none answers Hall) as Hc.
    split; [unfold calculateScore; cbn [score]; now rewrite score_countCorrect|].
    rewrite percentage_calculateScore, Hc. fold t.
    destruct (percent_integer 0 t) as (p & Ep & _ & Hexact); [lia|lia|].
    rewrite Ep. f_equal. rewrite Hexact.
    + unfold roundedPercent. apply Z.div_small. lia.
    + replace (200 * 0 + t) with t by lia. rewrite Z.mod_small by lia. lia.
Qed.

(** X6 at two correct answers. *)
Lemma X6_witness :
  percentage (calculateScore [answer true; answer true]) = of_int 100.
Proof.
  destruct (X6_all_or_nothing [answer true; answer true]) as [H _];
    [discriminate|reflexivity|].
  destruct H as [_ H]; [repeat constructor|exact H].
Defined.

Lemma countCorrect_perm answers answers' :
  answers ≡ₚ answers' -> countCorrect answers = countCorrect answers'.
Proof.
  induction 1 as [|a l l' _ IH|a b l|l l' l'' _ IH1 _ IH2]; cbn [countCorrect]; lia.
Qed.

(** X7: the result of [calculateScore] does not depend on the order of
    the answers. *)
Theorem X7_score_ignores_order answers answers' :
  answers ≡ₚ answers' -> calculateScore answers = calculateScore answers'.
Proof.
  intros Hp. unfold calculateScore.
  rewrite !score_countCorrect, (countCorrect_perm _ _ Hp), (Permutation_length Hp).
  reflexivity.
Qed.

(** X7 at two answers in both orders. *)
Lemma X7_witness :
  calculateScore [answer true; answer false] = calculateScore [answer false; answer true].
Proof.
  apply (X7_score_ignores_order [answer true; answer false] [answer false; answer true]).
  apply perm_swap.
Defined.

(** X8: the grade of a scored non-empty list is the grade the threshold
    table gives to its integer percentage; the percentage of the empty
    list, which is NaN, is graded F. *)
Theorem X8_grade_of_score answers :
  answers <> [] -> Z.of_nat (length answers) < 2 ^ 32 ->
  (exists p,
     to_int (percentage (calculateScore answers)) = Some p
     /\ grade (getGradeFromPercentage (percentage (calculateScore answers))) = gradeTable p)
  /\ grade (getGradeFromPercentage (percentage (calculateScore []))) = "F".
Proof.
  intros Hne Hlen. split; [|reflexivity].
  assert (Ht : 1 <= Z.of_nat (length answers)) by (destruct answers; [done|cbn [length]; lia]).
  pose proof (countCorrect_range answers) as Hc.
  destruct (percent_integer (countCorrect answers) (Z.of_nat (length answers)))
    as (p & Ep & Hp & _); [lia|lia|].
  exists p. rewrite percentage_calculateScore, Ep.
  split; [apply to_int_of_int; lia|].
  unfold getGradeFromPercentage, gradeTable.
  rewrite !ge_of_int by lia.
  repeat (destruct (_ <=? p); [reflexivity|]). reflexivity.
Qed.

(** X8 at the list [true, false, true]. *)
Lemma X8_witness :
  exists p,
    to_int (percentage (calculateScore [answer true; answer false; answer true])) = Some p
    /\ grade (getGradeFromPercentage
                (percentage (calculateScore [answer true; answer false; answer true])))
       = gradeTable p.
Proof.
  destruct (X8_grade_of_score [answer true; answer false; answer true]) as [H _];
    [discriminate|reflexivity|exact H].
Defined.

(** ** The status store: what every operation keeps *)

(** X9: an operation of the status store on one participant leaves the
    records of all other participants as they are, whatever the store
    answers; so does [submitTestResult]. *)
Theorem X9_other_participants_untouched op id id' testResult w :
  (id <> id' -> statusDocs (runStatusOp op id w) !! id' = statusDocs w !! id')
  /\ (r_userId testResult <> id' ->
      statusDocs (snd (submitTestResult testResult w)) !! id' = statusDocs w !! id').
Proof.
  split; intros Hne.
  - destruct op; unfold runStatusOp; unfold_store; cbn; case_store;
      rewrite ?lookup_insert_ne by done; congruence.
  - unfold_store; cbn; case_store; rewrite ?lookup_insert_ne by done; congruence.
Qed.

(** X9 for an increment of p1 seen from p2. *)
Lemma X9_witness :
  statusDocs (runStatusOp OpIncrement "p1" busyWorld) !! "p2" = statusDocs busyWorld !! "p2".
Proof.
  destruct (X9_other_participants_untouched OpIncrement "p1" "p2" sampleResult busyWorld)
    as [H _].
  apply H. discriminate.
Defined.

(** X10: no operation of the status store changes the collection of
    results, and [submitTestResult] changes it only by appending one
    record, the one it returns the identity of: when it throws, the
    collection is as before. *)
Theorem X10_results_append_only op id testResult w :
  testResults (runStatusOp op id w) = testResults w
  /\ match fst (submitTestResult testResult w) with
     | Return identity =>
         exists now, testResults (snd (submitTestResult testResult w))
                     = testResults w ++ [(identity, withCompletedAt testResult now)]
     | Throw _ => testResults (snd (submitTestResult testResult w)) = testResults w
     end.
Proof.
  split.
  - destruct op; unfold runStatusOp; unfold_store; cbn; case_store; reflexivity.
  - unfold_store; cbn; case_store; try reflexivity; eexists; reflexivity.
Qed.

(** X11: whatever the store answers, [markTestAsSubmitted] and
    [cancelTest] leave the stored violation count of every participant
    as it is, and neither they nor [incrementTabSwitchCount] clear a
    submitted or cancelled flag that is set.  [incrementTabSwitchCount]
    leaves the stored count of every participant as it is or raises it
    by one, as long as the count it reads is below 2^53 in magnitude,
    where the sum of numbers is exact. *)
Theorem X11_count_and_flags_kept id id' w :
  let w1 := snd (incrementTabSwitchCount id w) in
  let w2 := snd (markTestAsSubmitted id w) in
  let w3 := snd (cancelTest id w) in
  (- 2 ^ 53 < storedCount id w < 2 ^ 53 - 1 ->
   storedCount id' w <= storedCount id' w1 <= storedCount id' w + 1)
  /\ storedCount id' w2 = storedCount id' w
  /\ storedCount id' w3 = storedCount id' w
  /\ (storedSubmitted id' w = true ->
      storedSubmitted id' w1 = true /\ storedSubmitted id' w2 = true
      /\ storedSubmitted id' w3 = true)
  /\ (storedCancelled id' w = true ->
      storedCancelled id' w1 = true /\ storedCancelled id' w2 = true
      /\ storedCancelled id' w3 = true).
Proof.
  intros w1 w2 w3. subst w1 w2 w3.
  unfold storedCount, storedSubmitted, storedCancelled.
  destruct (decide (id = id')) as [<-|Hne].
  - unfold_store; cbn.
    destruct (statusDocs w !! id) as [data|] eqn:E; cbn;
      destruct (failure (respond w (calls w))); cbn; rewrite ?E; cbn;
      try (destruct (failure (respond w (S (calls w)))); cbn);
      unfold merge; cbn; repeat split.
    all: repeat (progress (rewrite ?lookup_insert_eq, ?E; cbn));
      rewrite ?plusOne_exact by (first [assumption | lia]); try lia; try done.
  - unfold_store; cbn.
    destruct (statusDocs w !! id) as [data|] eqn:E; cbn;
      destruct (failure (respond w (calls w))); cbn; rewrite ?E; cbn;
      try (destruct (failure (respond w (S (calls w)))); cbn);
      repeat split.
    all: repeat (progress (rewrite ?E; rewrite ?lookup_insert_ne by done; cbn));
      try lia; try done.
Qed.

(** X11 for p1, submitted with three violations on record: an increment
    stores four and the submission stays. *)
Lemma X11_witness :
  storedCount "p1" busyWorld <= storedCount "p1" (snd (incrementTabSwitchCount "p1" busyWorld))
  <= storedCount "p1" busyWorld + 1
  /\ storedSubmitted "p1" (snd (incrementTabSwitchCount "p1" busyWorld)) = true.
Proof.
  destruct (X11_count_and_flags_kept "p1" "p1" busyWorld) as (Hc & _ & _ & Hs & _).
  split.
  - apply Hc. vm_compute. split; reflexivity.
  - destruct Hs as [H _]; [reflexivity|exact H].
Defined.

(** ** [updateUserTestStatus] *)



(** X13: when the record does not exist and the store answers the update
    and then the write, [updateUserTestStatus] creates the record from
    the defaults with the caller's fields over them: here a last activity
    passed by the caller is the one stored, and the instant of the write
    is stored only when the caller passes none. *)
Theorem X13_update_missing_record id status w :
  failure (respond w (calls w)) = None ->
  statusDocs w !! id = None ->
  failure (respond w (S (calls w))) = None ->
  let now := clock w + latency (respond w (calls w)) in
  let created := merge status (docOfStatus (defaultStatus id now)) in
  updateUserTestStatus id status w
  = (Return (),
     withStatusDocs (<[id := created]> (statusDocs w)) (answered (answered w)))
  /\ doc_userId created = Some (default id (doc_userId status))
  /\ doc_hasSubmitted created = Some (default false (doc_hasSubmitted status))
  /\ doc_submissionDate created = doc_submissionDate status
  /\ doc_tabSwitchCount created = Some (default 0 (doc_tabSwitchCount status))
  /\ doc_isTestCancelled created = Some (default false (doc_isTestCancelled status))
  /\ doc_lastActivity created = Some (default now (doc_lastActivity status)).
Proof.
  intros H0 Hd H1 now created. subst now created. repeat split.
  - unfold_store; cbn. rewrite H0; cbn. rewrite Hd; cbn.
    rewrite bool_decide_eq_true_2 by reflexivity; cbn. rewrite H1; cbn. reflexivity.
  - cbn. destruct (doc_userId status); reflexivity.
  - cbn. destruct (doc_hasSubmitted status); reflexivity.
  - cbn. destruct (doc_submissionDate status); reflexivity.
  - cbn. destruct (doc_tabSwitchCount status); reflexivity.
  - cbn. destruct (doc_isTestCancelled status); reflexivity.
  - cbn. destruct (doc_lastActivity status); reflexivity.
Qed.

(** X13 in the empty store, for the same patch: the last activity stored
    is the caller's 5. *)
Lemma X13_witness :
  statusDocs (snd (updateUserTestStatus "p1"
                     {| doc_userId := None; doc_hasSubmitted := None;
                        doc_submissionDate := None; doc_tabSwitchCount := None;
                        doc_isTestCancelled := None; doc_lastActivity := Some 5 |}
                     quietWorld)) !! "p1"
  = Some {| doc_userId := Some "p1"; doc_hasSubmitted := Some false;
            doc_submissionDate := None; doc_tabSwitchCount := Some 0;
            doc_isTestCancelled := Some false; doc_lastActivity := Some 5 |}.
Proof.
  destruct (X13_update_missing_record "p1"
              {| doc_userId := None; doc_hasSubmitted := None;
                 doc_submissionDate := None; doc_tabSwitchCount := None;
                 doc_isTestCancelled := None; doc_lastActivity := Some 5 |}
              quietWorld) as [H _].
  - reflexivity.
  - reflexivity.
  - reflexivity.
  - rewrite H. reflexivity.
Defined.

(** X14: a failure of the update whose code is not [not-found] is thrown
    as a plain error that carries the message of the failure, or
    [Failed to update user test status] when that message is empty; no
    write is attempted and the records are as before. *)
Theorem X14_update_failure_is_wrapped id status e w :
  failure (respond w (calls w)) = Some e ->
  err_code e <> Some "not-found" ->
  updateUserTestStatus id status w
  = (Throw (Error (messageOr e "Failed to update user test status")), answered w).
Proof.
  intros H0 Hc. unfold_store; cbn. rewrite H0; cbn.
  rewrite bool_decide_eq_false_2 by exact Hc. reflexivity.
Qed.

(** X14 in the store that refuses every call. *)
Lemma X14_witness :
  updateUserTestStatus "p1" (docOfStatus (defaultStatus "p1" 0)) downWorld
  = (Throw (Error "Missing or insufficient permissions."), answered downWorld).
Proof.
  apply (X14_update_failure_is_wrapped "p1" (docOfStatus (defaultStatus "p1" 0))
           permissionDenied downWorld).
  - reflexivity.
  - discriminate.
Defined.

(** X15: when the record does not exist and the write that creates it
    fails, [updateUserTestStatus] throws the failure of the store as it
    is, with its code and without the wrapping of the other operations,
    and no record is created. *)
Theorem X15_update_fallback_failure_is_raw id status e w :
  failure (respond w (calls w)) = None ->
  statusDocs w !! id = None ->
  failure (respond w (S (calls w))) = Some e ->
  updateUserTestStatus id status w = (Throw e, answered (answered w)).
Proof.
  intros H0 Hd H1. unfold_store; cbn. rewrite H0; cbn. rewrite Hd; cbn.
  rewrite bool_decide_eq_true_2 by reflexivity; cbn. rewrite H1; cbn. reflexivity.
Qed.

(** X15 in the store whose second answer is a permission error: the error
    thrown still carries the code. *)
Lemma X15_witness :
  thrown (updateUserTestStatus "p1" (docOfStatus (defaultStatus "p1" 0)) deniedOnceWorld)
  = Some {| err_code := Some "permission-denied";
            err_message := "Missing or insufficient permissions." |}.
Proof.
  rewrite (X15_update_fallback_failure_is_raw "p1" (docOfStatus (defaultStatus "p1" 0))
             permissionDenied deniedOnceWorld); reflexivity.
Defined.

(** ** Sequences of calls *)

Lemma incrementTabSwitchCount_answered id w :
  failure (respond w (calls w)) = None ->
  failure (respond w (S (calls w))) = None ->
  - 2 ^ 53 < storedCount id w < 2 ^ 53 - 1 ->
  fst (incrementTabSwitchCount id w) = Return (storedCount id w + 1)
  /\ storedCount id (snd (incrementTabSwitchCount id w)) = storedCount id w + 1
  /\ respond (snd (incrementTabSwitchCount id w)) = respond w.
Proof.
  intros H0 H1. unfold storedCount. unfold_store; cbn. rewrite H0; cbn.
  destruct (statusDocs w !! id) as [data|] eqn:E; cbn; intros Hb; rewrite H1; cbn;
    rewrite ?E; cbn; rewrite lookup_insert_eq; cbn;
    rewrite ?plusOne_exact by (first [assumption | lia]); repeat split; lia.
Qed.

Lemma afterIncrements_count n id w :
  (forall k, failure (respond w k) = None) ->
  - 2 ^ 53 < storedCount id w ->
  storedCount id w + Z.of_nat n <= 2 ^ 53 - 1 ->
  storedCount id (afterIncrements n id w) = storedCount id w + Z.of_nat n
  /\ respond (afterIncrements n id w) = respond w.
Proof.
  intros Hw Hlo. induction n as [|n IH]; intros Hhi; cbn [afterIncrements].
  - split; [lia | reflexivity].
  - destruct IH as [IHc IHr]; [lia|].
    destruct (incrementTabSwitchCount_answered id (afterIncrements n id w))
      as (_ & Hc & Hr); try (rewrite IHr; apply Hw); [lia|].
    rewrite Hc, Hr, IHc, IHr. split; [lia | reflexivity].
Qed.

(** X16: when the store answers every call and the counts stay below
    2^53, [n] calls of [incrementTabSwitchCount] one after the other
    raise the stored violation count of the participant by [n], and the
    call after them returns that count plus one: no violation is lost or
    counted twice. *)
Theorem X16_repeated_increments n id w :
  (forall k, failure (respond w k) = None) ->
  - 2 ^ 53 < storedCount id w ->
  storedCount id w + Z.of_nat n < 2 ^ 53 - 1 ->
  storedCount id (afterIncrements n id w) = storedCount id w + Z.of_nat n
  /\ fst (incrementTabSwitchCount id (afterIncrements n id w))
     = Return (storedCount id w + Z.of_nat n + 1).
Proof.
  intros Hw Hlo Hhi.
  destruct (afterIncrements_count n id w Hw Hlo) as [Hc Hr]; [lia|].
  split; [exact Hc|].
  destruct (incrementTabSwitchCount_answered id (afterIncrements n id w))
    as (Hret & _); try (rewrite Hr; apply Hw); [lia|].
  rewrite Hret, Hc. reflexivity.
Qed.

(** X16 for five violations of a participant without a record, where the
    sixth call returns 6, and for two more of a participant with three on
    record. *)
Lemma X16_witness :
  (storedCount "p1" (afterIncrements 5 "p1" quietWorld) = 5
   /\ fst (incrementTabSwitchCount "p1" (afterIncrements 5 "p1" quietWorld)) = Return 6)
  /\ (storedCount "p1" (afterIncrements 2 "p1" busyWorld) = 5
      /\ fst (incrementTabSwitchCount "p1" (afterIncrements 2 "p1" busyWorld)) = Return 6).
Proof.
  split.
  - apply (X16_repeated_increments 5 "p1" quietWorld);
      [intros k; reflexivity|vm_compute; reflexivity|vm_compute; reflexivity].
  - apply (X16_repeated_increments 2 "p1" busyWorld);
      [intros k; reflexivity|vm_compute; reflexivity|vm_compute; reflexivity].
Defined.

(** X17: when the store answers every call, the status read after
    [markTestAsSubmitted] is submitted, with the submission date the
    instant after the read of the marking, and the status read after
    [cancelTest] is cancelled; in both the violation count and the other
    flag are the stored ones. *)
Theorem X17_mark_or_cancel_then_read id w :
  (forall k, failure (respond w k) = None) ->
  (exists status,
      fst (getUserTestStatus id (snd (markTestAsSubmitted id w))) = Return status
      /\ hasSubmitted status = true
      /\ submissionDate status = Some (clock w + latency (respond w (calls w)))
      /\ tabSwitchCount status = storedCount id w
      /\ isTestCancelled status = storedCancelled id w)
  /\ (exists status,
         fst (getUserTestStatus id (snd (cancelTest id w))) = Return status
         /\ isTestCancelled status = true
         /\ hasSubmitted status = storedSubmitted id w
         /\ tabSwitchCount status = storedCount id w).
Proof.
  intros Hw. unfold storedCount, storedCancelled, storedSubmitted.
  split; unfold_store; cbn; rewrite !Hw; cbn;
    destruct (statusDocs w !! id) as [data|] eqn:E; cbn; rewrite !Hw; cbn;
    rewrite ?E; cbn; rewrite ?Hw; cbn; rewrite lookup_insert_eq; cbn;
    eexists; repeat split.
Qed.

(** X17 for the marking of a participant without a record. *)
Lemma X17_witness :
  exists status,
    fst (getUserTestStatus "p1" (snd (markTestAsSubmitted "p1" quietWorld))) = Return status
    /\ hasSubmitted status = true
    /\ submissionDate status = Some 1010
    /\ tabSwitchCount status = 0
    /\ isTestCancelled status = false.
Proof.
  destruct (X17_mark_or_cancel_then_read "p1" quietWorld) as [H _].
  - intros k. reflexivity.
  - exact H.
Defined.

(** X18: when the store answers every call, a second
    [getUserTestStatus] writes nothing, and it returns what the first
    returned when the first created the record or found a record with a
    last activity: the default record is created once. *)
Theorem X18_status_read_is_repeatable id w :
  (forall k, failure (respond w k) = None) ->
  let first := getUserTestStatus id w in
  let second := getUserTestStatus id (snd first) in
  statusDocs (snd second) = statusDocs (snd first)
  /\ (statusDocs w !! id = None -> fst second = fst first)
  /\ (forall data, statusDocs w !! id = Some data ->
                   is_Some (doc_lastActivity data) -> fst second = fst first).
Proof.
  intros Hw first second. subst first second. repeat split.
  - unfold_store; cbn; rewrite !Hw; cbn.
    destruct (statusDocs w !! id) as [data|] eqn:E; cbn;
      repeat (progress (rewrite ?Hw; rewrite ?E; rewrite ?lookup_insert_eq; cbn));
      reflexivity.
  - intros E. unfold_store; cbn; rewrite !Hw; cbn. rewrite E; cbn.
    repeat (progress (rewrite ?Hw; rewrite ?lookup_insert_eq; cbn)). reflexivity.
  - intros data E [t Ht]. unfold_store; cbn; rewrite !Hw; cbn. rewrite E; cbn.
    repeat (progress (rewrite ?Hw; rewrite ?E; cbn)). rewrite Ht; cbn. reflexivity.
Qed.

(** X18 in the empty store: both reads return the default record created
    at 1010. *)
Lemma X18_witness :
  fst (getUserTestStatus "p1" (snd (getUserTestStatus "p1" quietWorld)))
  = Return (defaultStatus "p1" 1010).
Proof.
  destruct (X18_status_read_is_repeatable "p1" quietWorld) as (_ & H & _).
  - intros k. reflexivity.
  - rewrite H; reflexivity.
Defined.

(** ** Failures *)

Lemma messageOr_nonempty error fallback :
  fallback <> EmptyString -> messageOr error fallback <> EmptyString.
Proof.
  intros Hf. unfold messageOr. destruct (decide (err_message error = EmptyString)); done.
Qed.

(** X19: an error thrown by [getUserTestStatus], [markTestAsSubmitted],
    [incrementTabSwitchCount], [cancelTest], [submitTestResult] or
    [getUserTestResults] is a plain error: it carries no code of the store
    and its message is not empty. *)
Theorem X19_thrown_errors_are_plain id testResult w e :
  thrown (getUserTestStatus id w) = Some e
  \/ thrown (markTestAsSubmitted id w) = Some e
  \/ thrown (incrementTabSwitchCount id w) = Some e
  \/ thrown (cancelTest id w) = Some e
  \/ thrown (submitTestResult testResult w) = Some e
  \/ thrown (getUserTestResults id w) = Some e ->
  err_code e = None /\ err_message e <> EmptyString.
Proof.
  unfold thrown.
  intros [H|[H|[H|[H|[H|H]]]]]; revert H; unfold_store; cbn; case_store;
    intros [= <-]; (split; [reflexivity|]); cbn;
    try (apply messageOr_nonempty; discriminate); discriminate.
Qed.

(** X19 for an increment in the store that refuses every call. *)
Lemma X19_witness :
  err_code (Error "Missing or insufficient permissions.") = None
  /\ err_message (Error "Missing or insufficient permissions.") <> EmptyString.
Proof.
  apply (X19_thrown_errors_are_plain "p1" sampleResult downWorld).
  right; right; left. reflexivity.
Defined.

(** X20: when the marking inside [submitTestResult] has been stored and
    the write of the result then fails, [submitTestResult] throws the
    message of that failure, or [Failed to submit test result] when it is
    empty; no result is stored, and the participant is left marked as
    submitted. *)
Theorem X20_submit_fails_after_marking testResult e w :
  failure (respond w (calls w)) = None ->
  failure (respond w (S (calls w))) = None ->
  failure (respond w (S (S (calls w)))) = Some e ->
  fst (submitTestResult testResult w)
  = Throw (Error (messageOr e "Failed to submit test result"))
  /\ testResults (snd (submitTestResult testResult w)) = testResults w
  /\ storedSubmitted (r_userId testResult) (snd (submitTestResult testResult w)) = true.
Proof.
  intros H0 H1 H2. unfold storedSubmitted. unfold_store; cbn. rewrite H0; cbn.
  destruct (statusDocs w !! r_userId testResult) as [data|] eqn:E; cbn;
    rewrite H1; cbn; rewrite ?E; cbn; rewrite H2; cbn;
    rewrite lookup_insert_eq; cbn; repeat split.
Qed.

(** X20 when the third answer of the store is a permission error. *)
Lemma X20_witness :
  let w := {| statusDocs := ∅; testResults := []; clock := 1000; calls := 0;
              respond := fun n => if decide (n = 2%nat) then failing 10 permissionDenied
                                  else ok 10 |} in
  fst (submitTestResult sampleResult w)
  = Throw (Error "Missing or insufficient permissions.")
  /\ testResults (snd (submitTestResult sampleResult w)) = []
  /\ storedSubmitted "p1" (snd (submitTestResult sampleResult w)) = true.
Proof.
  intros w.
  apply (X20_submit_fails_after_marking sampleResult permissionDenied w); reflexivity.
Defined.

(** X21: when the read or the write of the marking fails,
    [submitTestResult] throws the message of that failure, or
    [Failed to mark test as submitted] when it is empty (the message of
    the marking, not its own), and it writes nothing: no result is
    stored and the records are as before. *)
Theorem X21_submit_fails_in_marking testResult e w :
  failure (respond w (calls w)) = Some e
  \/ (failure (respond w (calls w)) = None
      /\ failure (respond w (S (calls w))) = Some e) ->
  fst (submitTestResult testResult w)
  = Throw (Error (messageOr e "Failed to mark test as submitted"))
  /\ testResults (snd (submitTestResult testResult w)) = testResults w
  /\ statusDocs (snd (submitTestResult testResult w)) = statusDocs w.
Proof.
  assert (Hm : forall error,
             messageOr (Error (messageOr error "Failed to mark test as submitted"))
               "Failed to submit test result"
             = messageOr error "Failed to mark test as submitted").
  { intros error. unfold messageOr at 1. cbn.
    destruct (decide (messageOr error "Failed to mark test as submitted" = EmptyString))
      as [Hn|Hn]; [|reflexivity].
    exfalso. revert Hn. apply messageOr_nonempty. discriminate. }
  intros [H0|[H0 H1]]; unfold_store; cbn; rewrite H0; cbn.
  - rewrite Hm. repeat split.
  - destruct (statusDocs w !! r_userId testResult) as [data|] eqn:E; cbn;
      rewrite H1; cbn; rewrite Hm; repeat split.
Qed.

(** X21 in the store that refuses every call. *)
Lemma X21_witness :
  fst (submitTestResult sampleResult downWorld)
  = Throw (Error "Missing or insufficient permissions.")
  /\ testResults (snd (submitTestResult sampleResult downWorld)) = []
  /\ statusDocs (snd (submitTestResult sampleResult downWorld)) = ∅.
Proof.
  apply (X21_submit_fails_in_marking sampleResult permissionDenied downWorld).
  left. reflexivity.
Defined.

(** ** Reading results *)

Lemma insertBy_perm {A} (compareFn : A -> A -> Z) x l :
  insertBy compareFn x l ≡ₚ x :: l.
Proof.
  induction l as [|y l IH]; cbn; [reflexivity|].
  destruct (compareFn x y <=? 0); [reflexivity|].
  rewrite IH. apply Permutation_swap.
Qed.

Lemma sortBy_perm {A} (compareFn : A -> A -> Z) l : sortBy compareFn l ≡ₚ l.
Proof.
  induction l as [|x l IH]; cbn; [reflexivity|].
  rewrite insertBy_perm, IH. reflexivity.
Qed.

Lemma insertBy_newestFirst x l :
  StronglySorted newestFirst l ->
  StronglySorted newestFirst (insertBy byCompletedAtDesc x l).
Proof.
  induction 1 as [|y l Hs IH Hy]; cbn.
  - repeat constructor.
  - unfold byCompletedAtDesc at 1. destruct (Z.leb_spec (r_completedAt y.2 - r_completedAt x.2) 0).
    + constructor; [constructor; assumption|].
      constructor; [unfold newestFirst; lia|].
      eapply Forall_impl; [exact Hy|]. unfold newestFirst. intros z Hz. lia.
    + constructor; [exact IH|].
      rewrite insertBy_perm. constructor; [unfold newestFirst; lia | exact Hy].
Qed.

Lemma sortBy_newestFirst l : StronglySorted newestFirst (sortBy byCompletedAtDesc l).
Proof.
  induction l as [|x l IH]; cbn; [constructor|].
  apply insertBy_newestFirst, IH.
Qed.

Lemma sortBy_sorted l :
  StronglySorted newestFirst l -> sortBy byCompletedAtDesc l = l.
Proof.
  induction 1 as [|x l Hs IH Hx]; [reflexivity|].
  unfold sortBy in *. cbn [foldr]. rewrite IH.
  destruct Hx as [|y l Hxy _]; cbn; [reflexivity|].
  unfold byCompletedAtDesc, newestFirst in *.
  destruct (Z.leb_spec (r_completedAt y.2 - r_completedAt x.2) 0); [reflexivity|lia].
Qed.

(** X22: when the store answers, [getUserTestResults] returns the
    records of the participant and no others, each once, the newest
    first; records the store lists in that order already are returned in
    the order of the store; nothing is written. *)
Theorem X22_results_newest_first id w :
  failure (respond w (calls w)) = None ->
  let stored := filter (fun d => r_userId d.2 = id) (testResults w) in
  exists results,
    getUserTestResults id w = (Return results, answered w)
    /\ results ≡ₚ stored
    /\ StronglySorted newestFirst results
    /\ (forall d, d ∈ results <-> d ∈ testResults w /\ r_userId d.2 = id)
    /\ (StronglySorted newestFirst stored -> results = stored).
Proof.
  intros H0 stored. subst stored.
  exists (sortBy byCompletedAtDesc (filter (fun d => r_userId d.2 = id) (testResults w))).
  split; [unfold_store; cbn; rewrite H0; reflexivity|].
  split; [apply sortBy_perm|].
  split; [apply sortBy_newestFirst|].
  split; [|apply sortBy_sorted].
  intros d. rewrite sortBy_perm, list_elem_of_filter. tauto.
Qed.

(** X22 in the store that holds one result of p1. *)
Lemma X22_witness :
  exists results,
    getUserTestResults "p1" busyWorld = (Return results, answered busyWorld)
    /\ results ≡ₚ [("r0", sampleResult)]
    /\ StronglySorted newestFirst results
    /\ (forall d, d ∈ results <-> d ∈ testResults busyWorld /\ r_userId d.2 = "p1")
    /\ (StronglySorted newestFirst [("r0", sampleResult)] -> results = [("r0", sampleResult)]).
Proof.
  apply (X22_results_newest_first "p1" busyWorld). reflexivity.
Defined.

(** X23: when the store answers every call, the results read after a
    [submitTestResult] are those that were stored for the participant
    and the new record, under the identity that was returned: the
    caller's record with the instant of the submission as its completion
    instant, whatever completion instant the caller supplied.  The
    results of every other participant are as before. *)
Theorem X23_submit_then_read testResult w :
  (forall k, failure (respond w k) = None) ->
  let id := r_userId testResult in
  let now := clock w + latency (respond w (calls w)) + latency (respond w (S (calls w))) in
  exists identity results,
    fst (submitTestResult testResult w) = Return identity
    /\ fst (getUserTestResults id (snd (submitTestResult testResult w))) = Return results
    /\ results ≡ₚ filter (fun d => r_userId d.2 = id) (testResults w)
                  ++ [(identity,
                       {| r_userId := r_userId testResult; r_userName := r_userName testResult;
                         r_userEmail := r_userEmail testResult;
                         r_admissionNumber := r_admissionNumber testResult;
                         r_branch := r_branch testResult; r_score := r_score testResult;
                         r_totalQuestions := r_totalQuestions testResult;
                         r_percentage := r_percentage testResult;
                         r_timeSpent := r_timeSpent testResult;
                         r_answers := r_answers testResult;
                         r_completedAt := now; r_status := r_status testResult |})]
    /\ StronglySorted newestFirst results
    /\ forall id', id' <> id ->
                   fst (getUserTestResults id' (snd (submitTestResult testResult w)))
                   = fst (getUserTestResults id' w).
Proof.
  intros Hw id now. subst id now.
  assert (Es : submitTestResult testResult w
               = (Return (assignedId (respond w (S (S (calls w))))),
                  {| statusDocs := statusDocs (snd (submitTestResult testResult w));
                     testResults :=
                       testResults w
                       ++ [(assignedId (respond w (S (S (calls w)))),
                            withCompletedAt testResult
                              (clock w + latency (respond w (calls w))
                               + latency (respond w (S (calls w)))))];
                     clock := clock (snd (submitTestResult testResult w));
                     calls := S (S (S (calls w)));
                     respond := respond w |})).
  { unfold_store; cbn. rewrite (Hw (calls w)); cbn.
    destruct (statusDocs w !! r_userId testResult) as [data|] eqn:E; cbn;
      rewrite (Hw (S (calls w))); cbn; rewrite ?E; cbn;
      rewrite (Hw (S (S (calls w)))); cbn; reflexivity. }
  rewrite Es. cbn [fst snd].
  exists (assignedId (respond w (S (S (calls w))))),
    (sortBy byCompletedAtDesc
       (filter (fun d => r_userId d.2 = r_userId testResult)
          (testResults w
           ++ [(assignedId (respond w (S (S (calls w)))),
                withCompletedAt testResult
                  (clock w + latency (respond w (calls w))
                   + latency (respond w (S (calls w)))))]))).
  split; [reflexivity|].
  split; [unfold_store; cbn; rewrite Hw; cbn; reflexivity|].
  split.
  { rewrite sortBy_perm, filter_app. apply Permutation_app; [reflexivity|].
    cbn. rewrite decide_True by reflexivity. reflexivity. }
  split; [apply sortBy_newestFirst|].
  intros id' Hne. unfold_store; cbn. rewrite !Hw; cbn.
  rewrite filter_app. cbn. rewrite decide_False by congruence.
  rewrite app_nil_r. reflexivity.
Qed.

(** X23 for a first submission in the empty store, by a caller who
    supplied the completion instant 5: the record read back carries
    1020. *)
Lemma X23_witness :
  r_completedAt sampleResult = 5
  /\ exists identity results,
      fst (submitTestResult sampleResult quietWorld) = Return identity
      /\ fst (getUserTestResults "p1" (snd (submitTestResult sampleResult quietWorld)))
         = Return results
      /\ results
         ≡ₚ [(identity,
              {| r_userId := "p1"; r_userName := "Ada"; r_userEmail := "ada@example.org";
                 r_admissionNumber := "A1"; r_branch := "CSE"; r_score := 2;
                 r_totalQuestions := 3; r_percentage := of_int 67; r_timeSpent := 600;
                 r_answers := [answer true; answer false; answer true];
                 r_completedAt := 1020; r_status := completed |})].
Proof.
  split; [reflexivity|].
  destruct (X23_submit_then_read sampleResult quietWorld) as (identity & results & H1 & H2 & H3 & _).
  - intros k. reflexivity.
  - exists identity, results. split; [exact H1|]. split; [exact H2|exact H3].
Defined.

(** X24: whatever the store answers, every operation of the status
    store makes at least one call of the store and at most three, and at
    most two when it is not [getUserTestStatus]; [submitTestResult]
    makes between one and three calls and [getUserTestResults] exactly
    one. *)
Theorem X24_store_calls_are_bounded op id testResult w :
  (calls w < calls (runStatusOp op id w) <= calls w + 3)%nat
  /\ (op <> OpGet -> calls (runStatusOp op id w) <= calls w + 2)%nat
  /\ (calls w < calls (snd (submitTestResult testResult w)) <= calls w + 3)%nat
  /\ calls (snd (getUserTestResults id w)) = S (calls w).
Proof.
  repeat split.
  1-3: destruct op; try (intros Hop; try congruence; clear Hop); unfold runStatusOp;
    unfold_store; cbn; case_store; lia.
  1-2: unfold_store; cbn; case_store; lia.
  unfold_store; cbn; case_store; reflexivity.
Qed.

(** X24 for an increment in the empty store. *)
Lemma X24_witness :
  (calls (runStatusOp OpIncrement "p1" quietWorld) <= calls quietWorld + 2)%nat.
Proof.
  destruct (X24_store_calls_are_bounded OpIncrement "p1" sampleResult quietWorld)
    as (_ & H & _).
  apply H. discriminate.
Defined.

(** ** Grades *)

Lemma gradeOfValue_mono (p q : Q) :
  (p <= q)%Q -> gradeRank (gradeOfValue p) <= gradeRank (gradeOfValue q).
Proof.
  intros H. unfold gradeOfValue.
  repeat match goal with
         | |- context [Qle_bool ?a ?b] =>
             let E := fresh "E" in
             destruct (Qle_bool a b) eqn:E;
             [apply Qle_bool_iff in E
             |assert (b < a)%Q
                by (apply Qnot_le_lt; intros Hc; apply Qle_bool_iff in Hc; congruence);
              clear E]
         end;
    try (vm_compute; congruence); exfalso; lra.
Qed.

(** X25: a higher percentage never gets a lower grade: for finite numbers
    the grade rises with the value through F, C, B, B+, A, A+.  Of the
    numbers that are not finite, NaN and minus infinity are graded F and
    plus infinity A+. *)
Theorem X25_grade_is_monotone x y :
  valid_binary prec emax x = true -> is_finite x = true ->
  valid_binary prec emax y = true -> is_finite y = true ->
  (to_Q x <= to_Q y)%Q ->
  gradeRank (grade (getGradeFromPercentage x)) <= gradeRank (grade (getGradeFromPercentage y))
  /\ grade (getGradeFromPercentage NaN) = "F"
  /\ grade (getGradeFromPercentage (S754_infinity true)) = "F"
  /\ grade (getGradeFromPercentage (S754_infinity false)) = "A+".
Proof.
  intros Vx Fx Vy Fy Hxy. split; [|repeat split].
  assert (Hg : forall z, valid_binary prec emax z = true -> is_finite z = true ->
                         grade (getGradeFromPercentage z) = gradeOfValue (to_Q z)).
  { intros z Vz Fz. unfold getGradeFromPercentage, gradeOfValue.
    rewrite !ge_value by (done || lia).
    change (inject_Z 90) with 90%Q. change (inject_Z 80) with 80%Q.
    change (inject_Z 70) with 70%Q. change (inject_Z 60) with 60%Q.
    change (inject_Z 50) with 50%Q.
    repeat (destruct (Qle_bool _ (to_Q z)); [reflexivity|]). reflexivity. }
  rewrite !Hg by assumption. apply gradeOfValue_mono, Hxy.
Qed.

(** X25 for 49 and 90 percent. *)
Lemma X25_witness :
  gradeRank (grade (getGradeFromPercentage (of_int 49)))
  <= gradeRank (grade (getGradeFromPercentage (of_int 90))).
Proof.
  destruct (X25_grade_is_monotone (of_int 49) (of_int 90)) as [H _];
    [reflexivity|reflexivity|reflexivity|reflexivity|vm_compute; discriminate|exact H].
Defined.

(** ** Reading a status after a failure or an update *)

(** X26: [getUserTestStatus] can lose a record.  When the read fails with
    [permission-denied] or [not-found] and the write that follows is
    answered, the default record replaces whatever the store holds for
    the participant: a stored submission, cancellation and violation
    count are gone, and the status returned is the default one. *)
Theorem X26_failed_read_resets_record id e data w :
  failure (respond w (calls w)) = Some e ->
  isRecoverable e = true ->
  failure (respond w (S (calls w))) = None ->
  statusDocs w !! id = Some data ->
  let now := clock w + latency (respond w (calls w)) in
  let after := snd (getUserTestStatus id w) in
  fst (getUserTestStatus id w) = Return (defaultStatus id now)
  /\ statusDocs after !! id = Some (docOfStatus (defaultStatus id now))
  /\ storedSubmitted id after = false
  /\ storedCancelled id after = false
  /\ storedCount id after = 0.
Proof.
  intros H0 He H1 Hd now after. subst now after.
  unfold storedSubmitted, storedCancelled, storedCount.
  unfold_store; cbn. rewrite H0; cbn. rewrite He; cbn. rewrite H1; cbn.
  rewrite lookup_insert_eq; cbn. repeat split.
Qed.

(** X26 for p1, submitted with three violations, when the first answer of
    the store is a permission error. *)
Lemma X26_witness :
  storedSubmitted "p1" busyDeniedWorld = true
  /\ storedCount "p1" busyDeniedWorld = 3
  /\ storedSubmitted "p1" (snd (getUserTestStatus "p1" busyDeniedWorld)) = false
  /\ storedCount "p1" (snd (getUserTestStatus "p1" busyDeniedWorld)) = 0.
Proof.
  split; [reflexivity|]. split; [reflexivity|].
  destruct (X26_failed_read_resets_record "p1" permissionDenied
              {| doc_userId := Some "p1"; doc_hasSubmitted := Some true;
                 doc_submissionDate := Some 900; doc_tabSwitchCount := Some 3;
                 doc_isTestCancelled := Some false; doc_lastActivity := Some 900 |}
              busyDeniedWorld) as (_ & _ & Hs & _ & Hc);
    [reflexivity|reflexivity|reflexivity|reflexivity|].
  split; [exact Hs|exact Hc].
Defined.

(** X27: when the store answers every call, the status read after
    [updateUserTestStatus] was given a full status carries the flags and
    the violation count of that status, under the id of the participant;
    its last activity is the instant of the update when the record
    existed and the one of the given status when it did not. *)
Theorem X27_update_then_read id (s : UserTestStatus) w :
  (forall k, failure (respond w k) = None) ->
  exists status,
    fst (getUserTestStatus id (snd (updateUserTestStatus id (docOfStatus s) w)))
    = Return status
    /\ userId status = id
    /\ hasSubmitted status = hasSubmitted s
    /\ tabSwitchCount status = tabSwitchCount s
    /\ isTestCancelled status = isTestCancelled s
    /\ lastActivity status
       = match statusDocs w !! id with
         | Some _ => clock w
         | None => lastActivity s
         end.
Proof.
  intros Hw. unfold_store; cbn. rewrite !Hw; cbn.
  destruct (statusDocs w !! id) as [data|] eqn:E; cbn.
  - rewrite !Hw; cbn. rewrite lookup_insert_eq; cbn. eexists. repeat split.
  - rewrite bool_decide_eq_true_2 by reflexivity; cbn.
    rewrite !Hw; cbn. rewrite !Hw; cbn. rewrite lookup_insert_eq; cbn.
    eexists. repeat split.
Qed.

(** X27 for a cancelled status with two violations given to the empty
    store. *)
Lemma X27_witness :
  exists status,
    fst (getUserTestStatus "p1"
           (snd (updateUserTestStatus "p1"
                   (docOfStatus {| userId := "p1"; hasSubmitted := false;
                                   submissionDate := None; tabSwitchCount := 2;
                                   isTestCancelled := true; lastActivity := 7 |})
                   quietWorld)))
    = Return status
    /\ userId status = "p1"
    /\ hasSubmitted status = false
    /\ tabSwitchCount status = 2
    /\ isTestCancelled status = true
    /\ lastActivity status = 7.
Proof.
  apply (X27_update_then_read "p1"
           {| userId := "p1"; hasSubmitted := false; submissionDate := None;
              tabSwitchCount := 2; isTestCancelled := true; lastActivity := 7 |}
           quietWorld).
  intros k. reflexivity.
Defined.
